(** * stdnet: the redis backend and the column timeseries, embedded in Rocq

    Shallow embedding of [stdnet/backends/redisb.py] (query compilation,
    session commit, cascading delete, structure flush) and of
    [stdnet/apps/columnts/models.py] ([ColumnTS.merge]).

    A redis client or pipeline is the list of commands queued on it, oldest
    first.  Python exceptions are values of [exn]; a call that can raise
    returns a [result]. *)

From Stdlib Require Import String List ZArith Bool Arith Lia.
Import ListNotations.
Local Open Scope string_scope.
Local Open Scope list_scope.

(** ** Keys, arguments, commands *)

(** A component of a key built by [backend.basekey(meta, *args)]: a literal
    string, or an identifier drawn from [gen_unique_id()]. *)
Inductive part : Type :=
| P (s : string)
| U (uid : nat).

(** [backend.basekey(meta, *args)]: the model's namespace followed by the
    parts, or the id of a structure. *)
Inductive rkey : Type :=
| basekey (model : string) (parts : list part)
| structure_id (id : string).

Definition OBJ : string := "obj".
Definition TMP : string := "tmp".

(** The dictionary returned by [RedisQuery.order]. *)
Record order_dict : Type := OrderDict {
  od_field : string;
  od_method : string;
  od_desc : bool;
  od_nested : list (rkey * string) }.

(** One entry of [RedisQuery.related_lua_args]. *)
Record related_data : Type := RelatedData {
  rd_field : string;
  rd_type : string;
  rd_bk : option rkey;
  rd_fields : list string }.

(** The [options] dictionary that [RedisQuery._items] dumps to JSON; an
    empty [order] tuple is [None]. *)
Record load_options : Type := LoadOptions {
  lo_ordering : string;
  lo_order : option order_dict;
  lo_start : Z;
  lo_stop : Z;
  lo_fields : list string;
  lo_related : list (string * related_data);
  lo_get : option string }.

(** Python values that travel as command arguments. [AFloat m e] is the
    decimal literal [m]e[e]. *)
Inductive arg : Type :=
| ANone
| AInt (z : Z)
| AFloat (mantissa exponent : Z)
| AStr (s : string)
| AKey (k : rkey)
| AKeys (ks : list rkey)
| AMeta (model : string)
| ADump (value : string) (nested_args : list (string * option rkey))
| AOptions (joptions : load_options).

(** [MIN_FLOAT = -1.e99] *)
Definition MIN_FLOAT : arg := AFloat (-1) 99.

Inductive command : Type :=
| redis (name : string) (key : rkey) (args : list arg)
| execute_script (name : string) (keys : list rkey) (args : list arg)
| execute.

Definition client : Type := list command.

Inductive exn : Type :=
| ValueError (msg : string)
| QuerySetError (msg : string)
| NameError (name : string)
| KeyError (key : string)
| AttributeError (attr : string)
| NotImplementedError (msg : string)
| FieldValueError (errors : string)
| SessionNotAvailable (msg : string).

Inductive result (A : Type) : Type :=
| Ok (a : A)
| Raise (e : exn).
Arguments Ok {A} a.
Arguments Raise {A} e.

(** Python truthiness of a sequence. *)
Definition truthy {A : Type} (l : list A) : bool :=
  match l with [] => false | _ :: _ => true end.

Definition truthy_str (s : string) : bool :=
  match s with EmptyString => false | _ => true end.

Definition name_of (c : command) : string :=
  match c with
  | redis n _ _ => n
  | execute_script n _ _ => n
  | execute => "execute"
  end.

(** ** Structures: the flush of each kind *)

Module Structures.

(** [instance.cache] of a set / hash: [toadd] and [toremove]. *)
Record cache (A R : Type) : Type := Cache { toadd : list A; toremove : list R }.
Arguments Cache {A R} toadd toremove.
Arguments toadd {A R} c.
Arguments toremove {A R} c.

(** [instance.cache] of a list: [front] and [back]. *)
Record listcache : Type := ListCache { front : list string; back : list string }.

Definition flat {A : Type} (f : A -> list arg) (l : list A) : list arg :=
  flat_map f l.

Definition score_value (el : Z * string) : list arg :=
  [AInt (fst el); AStr (snd el)].

Definition field_value (el : string * string) : list arg :=
  [AStr (fst el); AStr (snd el)].

(** Every [flush] starts with [result = None] and returns [result];
    [Some true] is Python's [True]. *)

(** [String.flush] *)
Definition String_flush (id : rkey) (data : string) (c : client)
  : client * option bool :=
  if truthy_str data
  then (c ++ [redis "append" id [AStr data]], Some true)
  else (c, None).

(** [Set.flush] *)
Definition Set_flush (id : rkey) (cache : cache string string) (c : client)
  : client * option bool :=
  let '(c, result) :=
    if truthy (toadd cache)
    then (c ++ [redis "sadd" id (map AStr (toadd cache))], Some true)
    else (c, None) in
  if truthy (toremove cache)
  then (c ++ [redis "srem" id (map AStr (toremove cache))], Some true)
  else (c, result).

(** [Zset.flush] *)
Definition Zset_flush (id : rkey) (cache : cache (Z * string) (Z * string))
  (c : client) : client * option bool :=
  let '(c, result) :=
    if truthy (toadd cache)
    then (c ++ [redis "zadd" id (flat score_value (toadd cache))], Some true)
    else (c, None) in
  if truthy (toremove cache)
  then (c ++ [redis "zrem" id (map (fun el => AStr (snd el)) (toremove cache))],
        Some true)
  else (c, result).

(** [List.flush] *)
Definition List_flush (id : rkey) (cache : listcache) (c : client)
  : client * option bool :=
  let '(c, result) :=
    if truthy (front cache)
    then (c ++ [redis "lpush" id (map AStr (front cache))], Some true)
    else (c, None) in
  if truthy (back cache)
  then (c ++ [redis "rpush" id (map AStr (back cache))], Some true)
  else (c, result).

(** [Hash.flush] *)
Definition Hash_flush (id : rkey) (cache : cache (string * string) string)
  (c : client) : client * option bool :=
  let '(c, result) :=
    if truthy (toadd cache)
    then (c ++ [redis "hmset" id (flat field_value (toadd cache))], Some true)
    else (c, None) in
  if truthy (toremove cache)
  then (c ++ [redis "hdel" id (map AStr (toremove cache))], Some true)
  else (c, result).

(** [TS.flush]: the removal branch raises after the additive script was
    queued. *)
Definition TS_flush (id : rkey) (cache : cache (Z * string) Z) (c : client)
  : client * result (option bool) :=
  let '(c, result) :=
    if truthy (toadd cache)
    then (c ++ [execute_script "ts_commands" [id]
                  (AStr "add" :: flat score_value (toadd cache))], Some true)
    else (c, None) in
  if truthy (toremove cache)
  then (c, Raise (NotImplementedError "Cannot remove. TSDEL not implemented"))
  else (c, Ok result).

(** [NumberArray.flush] *)
Definition NumberArray_flush (id : rkey) (cache : listcache) (c : client)
  : client * option bool :=
  if truthy (back cache)
  then (c ++ [execute_script "numberarray_pushback" [id] (map AStr (back cache))],
        Some true)
  else (c, None).

(** The five kinds with a plain [flush], each with the cache it reads. *)
Inductive structure : Type :=
| String_ (id : rkey) (data : string)
| Set_ (id : rkey) (cache : cache string string)
| Zset (id : rkey) (cache : cache (Z * string) (Z * string))
| List_ (id : rkey) (cache : listcache)
| Hash (id : rkey) (cache : cache (string * string) string).

(** [binstance.flush()] through [struct_map]. *)
Definition flush (s : structure) (c : client) : client * option bool :=
  match s with
  | String_ id data => String_flush id data c
  | Set_ id cache => Set_flush id cache c
  | Zset id cache => Zset_flush id cache c
  | List_ id cache => List_flush id cache c
  | Hash id cache => Hash_flush id cache c
  end.

(** The two containers of pending operations a kind keeps; for a string
    the only one is the buffer. *)
Definition pending (s : structure) : bool * bool :=
  match s with
  | String_ _ data => (truthy_str data, false)
  | Set_ _ cache => (truthy (toadd cache), truthy (toremove cache))
  | Zset _ cache => (truthy (toadd cache), truthy (toremove cache))
  | List_ _ cache => (truthy (front cache), truthy (back cache))
  | Hash _ cache => (truthy (toadd cache), truthy (toremove cache))
  end.

Definition additive (c : command) : bool :=
  existsb (String.eqb (name_of c))
    ["append"; "sadd"; "zadd"; "hmset"; "lpush"; "rpush"].

Definition removal (c : command) : bool :=
  existsb (String.eqb (name_of c)) ["srem"; "zrem"; "hdel"].

Definition is_list (s : structure) : bool :=
  match s with List_ _ _ => true | _ => false end.

Definition count (f : command -> bool) (l : list command) : nat :=
  length (filter f l).

End Structures.

(** ** Pipelines with a source of unique ids: a state and error monad *)

(** [pipe] is the pipeline the compilation queues commands on; [uid] feeds
    [gen_unique_id()]; [temps] logs every key [backend.tempkey] has
    returned (a ghost field: no code reads it). *)
Record state : Type := State {
  pipe : client;
  uid : nat;
  temps : list rkey }.

(** A raising call keeps the commands it queued before the exception. *)
Definition M (A : Type) : Type := state -> state * result A.

Definition ret {A : Type} (a : A) : M A := fun st => (st, Ok a).

Definition raise {A : Type} (e : exn) : M A := fun st => (st, Raise e).

Definition bind {A B : Type} (m : M A) (f : A -> M B) : M B :=
  fun st =>
    match m st with
    | (st', Ok a) => f a st'
    | (st', Raise e) => (st', Raise e)
    end.

Declare Scope py_scope.
Delimit Scope py_scope with py.
Notation "x <- c1 ;; c2" := (bind c1 (fun x => c2))
  (at level 61, c1 at next level, right associativity) : py_scope.
Notation "' pat <- c1 ;; c2" := (bind c1 (fun x => match x with pat => c2 end))
  (at level 61, pat pattern, c1 at next level, right associativity) : py_scope.
Notation "c1 ;; c2" := (bind c1 (fun _ => c2))
  (at level 61, right associativity) : py_scope.
Local Open Scope py_scope.

(** Queue one command on the pipeline. *)
Definition emit (c : command) : M unit :=
  fun st => (State (pipe st ++ [c]) (uid st) (temps st), Ok tt).

(** [backend.tempkey(meta)]: [basekey(meta, TMP, gen_unique_id())]. *)
Definition tempkey (model : string) : M rkey :=
  fun st =>
    let key := basekey model [P TMP; U (uid st)] in
    (State (pipe st) (S (uid st)) (temps st ++ [key]), Ok key).

(** [backend.odmrun(client, command, meta, keys, meta_info, *args)] *)
Definition odmrun (command : string) (model : string) (keys : list rkey)
  (args : list arg) : M unit :=
  emit (execute_script "odmrun" keys (AStr command :: AMeta model :: args)).

(** [backend.where_run]: after [keys.append(meta_info)] the body reads
    [args] when [load_only] is given and then [keys_args]; neither name is
    bound in the function or in the module, so the call raises [NameError]
    before anything is queued. *)
Definition where_run (meta_info : arg) (keys : list rkey) (where_ : string)
  (load_only : list string) : M unit :=
  if truthy load_only then raise (NameError "args")
  else raise (NameError "keys_args").

(** ** The query compiler *)

Module Query.

Record field : Type := Field { attname : string }.

#[local] Set Warnings "-register-all".

(** [orderinginfo(name, field, desc, model, nested)]; of [field] the code
    reads [internal_type], of [model] the namespace and the primary key
    name. *)
Inductive orderinginfo : Type :=
| OrderingInfo (name : string) (internal_type : string) (desc : bool)
    (model : string) (model_pkname : string) (nested : option orderinginfo).

Definition oi_desc (o : orderinginfo) : bool :=
  match o with OrderingInfo _ _ desc _ _ _ => desc end.

(** What the compiler reads of a model's [meta]. [get_sorting_pk] is
    [meta.get_sorting(meta.pkname())]. *)
Record meta : Type := Meta {
  model : string;
  pkname : string;
  ordering : option orderinginfo;
  dfields : list (string * field);
  get_sorting_pk : orderinginfo;
  backend_fields : list string -> list string * list string }.

(** The value of a [(lookup, value)] child. *)
Inductive value : Type :=
| VNone
| VStr (s : string)
| VTuple (v : string) (nested : list (string * option string)).

(** A query element: [keyword], [name], its model, the children it
    iterates over, [data.get('where')] and [_get_field]. A child is a query
    of the same backend or a [(lookup, value)] pair. *)
Inductive queryelem : Type :=
| QueryElem (keyword name : string) (m : meta) (children : list child)
    (where_ : option (string * list string)) (_get_field : option string)
with child : Type :=
| CQuery (q : queryelem)
| CPair (lookup : string) (v : value).

(** What [_build] leaves on the backend query: [query_key] and the [card]
    command it may have chosen. *)
Record backend_query : Type := BackendQuery {
  query_key : rkey;
  card : option string }.

(** [RedisQuery.dump_nested] *)
Definition dump_nested (v : string) (nested : list (string * option string))
  : arg :=
  ADump v (map (fun nm => (fst nm,
                           match snd nm with
                           | Some m => Some (basekey m [])
                           | None => None
                           end)) nested).

Definition lookup_arg (v : value) : arg :=
  match v with
  | VNone => AStr ""
  | VStr s => AStr s
  | VTuple v nested => dump_nested v nested
  end.

Fixpoint get_field (dfields : list (string * field)) (name : string)
  : option field :=
  match dfields with
  | [] => None
  | (n, f) :: rest => if String.eqb n name then Some f else get_field rest name
  end.

Definition is_some {A : Type} (o : option A) : bool :=
  match o with Some _ => true | None => false end.

Definition truthy_opt (o : option string) : bool :=
  match o with Some s => truthy_str s | None => false end.

Section Build.

(** [self.expire], the lifetime given to temporary keys. *)
Variable expire : Z.

(** [RedisQuery._build] from [temp_key = True] to the end: what is done with
    the [keys] and [args] collected from the children. *)
Definition _build_element (keyword name : string) (meta : meta)
  (where_ : option (string * list string)) (gf : option string)
  (keys : list rkey) (args : list arg) : M backend_query :=
  let pkname := pkname meta in
  '(key, temp_key, keys) <-
    (if String.eqb keyword "set" then
       if String.eqb name pkname && negb (truthy args) then
         ret (basekey (model meta) [P "id"], false, keys)
       else
         key <- tempkey (model meta) ;;
         let keys := key :: keys in
         odmrun "query" (model meta) keys (AStr name :: args) ;;
         ret (key, true, keys)
     else
       key <- tempkey (model meta) ;;
       let p := match ordering meta with Some _ => "z" | None => "s" end in
       emit (execute_script "move2set" keys [AStr p]) ;;
       command <-
         (if String.eqb keyword "intersect" then ret (String.append p "interstore")
          else if String.eqb keyword "union" then ret (String.append p "unionstore")
          else if String.eqb keyword "diff" then ret (String.append p "diffstore")
          else raise (ValueError (String.append "Could not perform "
                                    (String.append keyword " operation")))) ;;
       emit (redis command key [AKeys keys]) ;;
       ret (key, true, keys)) ;;
  '(key, temp_key) <-
    match where_ with
    | Some (where_, load_only) =>
        let keys := key :: keys in
        '(key, temp_key) <-
          (if temp_key : bool then ret (key, temp_key)
           else key <- tempkey (model meta) ;; ret (key, true)) ;;
        let keys := key :: keys in
        where_run (AMeta (model meta)) keys where_ load_only ;;
        ret (key, temp_key)
    | None => ret (key, temp_key)
    end ;;
  '(key, temp_key, card) <-
    match (if truthy_opt gf then gf else None) with
    | Some gf =>
        if negb (String.eqb gf pkname) then
          match get_field (dfields meta) gf with
          | None => raise (KeyError gf)
          | Some f =>
              let field_attribute := attname f in
              let bkey := key in
              '(key, temp_key) <-
                (if temp_key : bool then ret (key, temp_key)
                 else key <- tempkey (model meta) ;; ret (key, true)) ;;
              let okey :=
                basekey (model meta) [P OBJ; P (String.append "*->" field_attribute)] in
              emit (redis "sort" bkey [AStr "nosort"; AKey okey; AKey key]) ;;
              ret (key, temp_key, Some "llen")
          end
        else ret (key, temp_key, None)
    | None => ret (key, temp_key, None)
    end ;;
  (if temp_key : bool then emit (redis "expire" key [AInt expire])
   else ret tt) ;;
  ret (BackendQuery key card).

(** [RedisQuery._build]: the loop over the children, then the element
    itself. A child query is compiled on the same pipeline
    ([value.backend_query(pipe=pipe)]); a pair whose lookup is ['set'] must
    hold a query, any other value has no [backend_query]. *)
Fixpoint _build (qs : queryelem) {struct qs} : M backend_query :=
  match qs with
  | QueryElem keyword name meta children where_ gf =>
    '(keys, args) <-
      (fix loop (cs : list child) (keys : list rkey) (args : list arg)
         {struct cs} : M (list rkey * list arg) :=
         match cs with
         | [] => ret (keys, args)
         | CQuery value :: cs =>
             be <- _build value ;;
             loop cs (keys ++ [query_key be])
                  (args ++ [AStr "set"; AKey (query_key be)])
         | CPair lookup value :: cs =>
             if String.eqb lookup "set"
             then raise (AttributeError "backend_query")
             else loop cs keys (args ++ [AStr lookup; lookup_arg value])
         end) children [] [] ;;
    _build_element keyword name meta where_ gf keys args
  end.

(** The loop over the children of [_build], by name. *)
Fixpoint children_loop (cs : list child) (keys : list rkey) (args : list arg)
  {struct cs} : M (list rkey * list arg) :=
  match cs with
  | [] => ret (keys, args)
  | CQuery value :: cs =>
      be <- _build value ;;
      children_loop cs (keys ++ [query_key be])
        (args ++ [AStr "set"; AKey (query_key be)])
  | CPair lookup value :: cs =>
      if String.eqb lookup "set"
      then raise (AttributeError "backend_query")
      else children_loop cs keys (args ++ [AStr lookup; lookup_arg value])
  end.

End Build.

(** What [_items] reads of a backend query: the model, the query element's
    [ordering], [_get_field], [fields] and the names of [select_related],
    the dictionary built from [related_lua_args], and what [_build] left. *)
Record RedisQuery : Type := {
  rq_meta : meta;
  rq_ordering : option orderinginfo;
  rq_get_field : option string;
  rq_fields : list string;
  rq_select_related : list string;
  rq_related : list (string * related_data);
  rq_built : backend_query }.

(** A python [slice]; any slice object is truthy. *)
Record slice : Type := Slice { sl_start : option Z; sl_stop : option Z }.

(** The [while nested] loop of [RedisQuery.order]: the arguments collected
    and the last element of the chain. *)
Fixpoint order_nested (last : orderinginfo)
  : list (rkey * string) * orderinginfo :=
  match last with
  | OrderingInfo _ _ _ _ _ None => ([], last)
  | OrderingInfo _ _ _ _ _ (Some nested) =>
      let '(nested_args, last') := order_nested nested in
      match nested with
      | OrderingInfo name _ _ model _ _ =>
          ((basekey model [], name) :: nested_args, last')
      end
  end.

(** [RedisQuery.order] *)
Definition order (last : orderinginfo) : order_dict :=
  match last with
  | OrderingInfo field _ desc _ _ _ =>
      let '(nested_args, last) := order_nested last in
      match last with
      | OrderingInfo _ internal_type _ _ model_pkname _ =>
          let method := if String.eqb internal_type "text" then "ALPHA" else "" in
          let field := if String.eqb field model_pkname then "" else field in
          OrderDict field method desc nested_args
      end
  end.

(** [RedisQuery.get_redis_slice] *)
Definition get_redis_slice (slic : option slice) : Z * option Z :=
  match slic with
  | Some slic =>
      (match sl_start slic with Some start => start | None => 0%Z end,
       sl_stop slic)
  | None => (0%Z, None)
  end.

(** The error of [_items] for a slice together with a [get_field]. *)
Definition slice_error : exn :=
  QuerySetError
    "Cannot slice a queryset in conjunction with get_field. Use load_only instead.".

Section Items.

(** [stdnet.utils.unique_tuple] *)
Variable unique_tuple : list string -> list string -> list string.

(** [RedisQuery._execute_query]: queue the cardinality command, run the
    pipeline and return its last reply, [N]. *)
Definition _execute_query (self : RedisQuery) (N : Z) : M Z :=
  let card :=
    match card (rq_built self) with
    | Some card => card
    | None =>
        match ordering (rq_meta self) with
        | Some _ => "zcard"
        | None => "scard"
        end
    end in
  emit (redis card (query_key (rq_built self)) []) ;;
  emit execute ;;
  ret N.

(** [RedisQuery._items]; [N] is what the store answers if the cardinality
    is asked for. The load script is called on [backend.client], recorded
    on the same trace after the pipeline has run. *)
Definition _items (self : RedisQuery) (slic : option slice) (N : Z) : M unit :=
  let meta := rq_meta self in
  let name := "" in
  let order_ := @None order_dict in
  let '(start, stop) := get_redis_slice slic in
  let '(name, order_) :=
    match rq_ordering self with
    | Some o => (name, Some (order o))
    | None =>
        match ordering meta with
        | Some o => (if oi_desc o then "DESC" else "ASC", order_)
        | None =>
            if negb (start =? 0)%Z || is_some stop
            then (name, Some (order (get_sorting_pk meta)))
            else (name, order_)
        end
    end in
  '(name, start, stop) <-
    match order_ with
    | Some _ =>
        N <- _execute_query self N ;;
        let stop :=
          match stop with
          | None => N
          | Some stop => if (stop <? 0)%Z then (stop + N)%Z else stop
          end in
        let start := if (start <? 0)%Z then (start + N)%Z else start in
        ret ("explicit", start, (stop - start)%Z)
    | None =>
        ret (name, start, match stop with None => (-1)%Z | Some stop => stop end)
    end ;;
  let get := rq_get_field self in
  let pkname_tuple := [pkname meta] in
  '(fields, fields_attributes) <-
    match (if truthy_opt get then get else None) with
    | Some get =>
        if is_some slic then
          raise slice_error
        else if String.eqb get (pkname meta) then ret (pkname_tuple, pkname_tuple)
        else ret (backend_fields meta [get])
    | None =>
        let fields := rq_fields self in
        let fields :=
          if truthy fields then unique_tuple fields (rq_select_related self)
          else fields in
        if list_eq_dec string_dec fields pkname_tuple then ret (fields, fields)
        else if truthy fields then ret (backend_fields meta fields)
        else ret (fields, [])
    end ;;
  let joptions :=
    LoadOptions name order_ start stop fields_attributes (rq_related self) get in
  odmrun "load" (model meta) [query_key (rq_built self)] [AOptions joptions].

End Items.

End Query.

(** ** Cascading delete *)

Module Delete.

(** A model's [meta] as one call of [accumulate_delete] walks it: its name
    and, for each name in [meta.related], the related manager found on the
    model: the model holding the foreign key, and the key's [attname] and
    [required]. A manager of the model itself carries the model's own name.
    This is the walk unfolded (see [Cascade.unfold]): the tree of the models
    a delete reaches through required keys, which is finite exactly when the
    recursion of [accumulate_delete] ends. The recursion itself, over models
    that may hold required keys to each other, is [Cascade]. *)
Inductive meta : Type :=
| Meta (name : string) (related : list rmanager)
with rmanager : Type :=
| RManager (model : meta) (attname : string) (required : bool).

Definition name (m : meta) : string :=
  match m with Meta name _ => name end.

Definition related (m : meta) : list rmanager :=
  match m with Meta _ related => related end.

Definition rm_model (r : rmanager) : meta :=
  match r with RManager model _ _ => model end.

Definition rm_attname (r : rmanager) : string :=
  match r with RManager _ attname _ => attname end.

Definition rm_required (r : rmanager) : bool :=
  match r with RManager _ _ required => required end.

(** [rmanager.model == meta.model] *)
Definition same_model (meta : meta) (r : rmanager) : bool :=
  String.eqb (name (rm_model r)) (name meta).

(** A compiled query: the model of its query element and its [query_key]. *)
Record backend_query : Type := BackendQuery {
  bq_meta : meta;
  query_key : rkey }.

Section AccumulateDelete.

Variable expire : Z.

(** Modelled from the spec: [rmanager.query_from_query(query)
    .backend_query(pipe=pipe)] lives in the query module of the ORM (not in
    this backend). The dependents are the instances whose foreign key is in
    the parent's result set: a filtered-set script over the parent's key
    into a fresh temporary key, which is given its expiry on the same
    pipeline. *)
Definition related_backend_query (r : rmanager) (parent_key : rkey) : M rkey :=
  let model := name (rm_model r) in
  key <- tempkey model ;;
  odmrun "query" model [key; parent_key]
    [AStr (rm_attname r); AStr "set"; AKey parent_key] ;;
  emit (redis "expire" key [AInt expire]) ;;
  ret key.

(** The first loop of [accumulate_delete]: the aggregate script of each
    manager of the model itself. *)
Fixpoint aggregate_related (meta : meta) (keys : list rkey)
  (related : list rmanager) : M unit :=
  match related with
  | [] => ret tt
  | rmanager :: related =>
      (if same_model meta rmanager
       then odmrun "aggregate" (name meta) keys [AStr (rm_attname rmanager)]
       else ret tt) ;;
      aggregate_related meta keys related
  end.

(** The managers the first loop appends to [rel_managers]. *)
Definition rel_managers (meta : meta) : list rmanager :=
  filter (fun r => negb (same_model meta r)) (related meta).

(** [accumulate_delete] on a query of model [meta] with key [query_key].
    The second loop runs over [meta.related] and skips the managers of the
    model itself, which is the loop over [rel_managers]. *)
Fixpoint accumulate_delete_query (meta : meta) (query_key : rkey) {struct meta}
  : M unit :=
  match meta with
  | Meta _ related =>
      let keys := [query_key] in
      aggregate_related meta keys related ;;
      (fix loop (rms : list rmanager) {struct rms} : M unit :=
         match rms with
         | [] => ret tt
         | RManager model attname required :: rms =>
             (if negb (same_model meta (RManager model attname required))
                 && required
              then
                rq <- related_backend_query (RManager model attname required)
                        query_key ;;
                accumulate_delete_query model rq
              else ret tt) ;;
             loop rms
         end) related ;;
      odmrun "delete" (name meta) keys []
  end.

(** The second loop of [accumulate_delete], by name. *)
Definition dependents_loop (meta : meta) (query_key : rkey)
  : list rmanager -> M unit :=
  fix loop (rms : list rmanager) {struct rms} : M unit :=
    match rms with
    | [] => ret tt
    | RManager model attname required :: rms =>
        (if negb (same_model meta (RManager model attname required)) && required
         then
           rq <- related_backend_query (RManager model attname required)
                   query_key ;;
           accumulate_delete_query model rq
         else ret tt) ;;
        loop rms
    end.

(** [BackendDataServer.accumulate_delete] *)
Definition accumulate_delete (backend_query : option backend_query) : M unit :=
  match backend_query with
  | None => ret tt
  | Some bq => accumulate_delete_query (bq_meta bq) (query_key bq)
  end.

End AccumulateDelete.

End Delete.

(** ** Cascading delete over the models of an application *)

Module Cascade.

(** A related manager as [accumulate_delete] reads it: the name of the model
    holding the foreign key ([rmanager.model]), and the key's [attname] and
    [required]. *)
Record rmanager : Type := RManager {
  rm_model : string;
  rm_attname : string;
  rm_required : bool }.

(** The models of an application: for each model, the managers
    [getattr(meta.model, name)] for [name] in [meta.related], in order.
    Nothing keeps two models from holding required keys to each other. *)
Definition schema : Type := string -> list rmanager.

(** A compiled query: the model of its query element and its [query_key]. *)
Record backend_query : Type := BackendQuery {
  bq_model : string;
  query_key : rkey }.

(** A computation that calls itself: [None] when the recursion has not
    ended within the depth allowed. Python then raises at its recursion
    limit, out of [execute_session], and the pipeline is not run. *)
Definition W (A : Type) : Type := state -> option (state * result A).

Definition lift {A : Type} (m : M A) : W A := fun st => Some (m st).

Definition bindW {A B : Type} (m : W A) (f : A -> W B) : W B :=
  fun st =>
    match m st with
    | Some (st', Ok a) => f a st'
    | Some (st', Raise e) => Some (st', Raise e)
    | None => None
    end.

Section AccumulateDelete.

Variable expire : Z.
Variable models : schema.

(** [rmanager.model == meta.model] *)
Definition same_model (model : string) (r : rmanager) : bool :=
  String.eqb (rm_model r) model.

(** Modelled from the spec: [rmanager.query_from_query(query)
    .backend_query(pipe=pipe)] lives in the query module of the ORM (not in
    this backend). The dependents are the instances whose foreign key is in
    the parent's result set: a filtered-set script over the parent's key
    into a fresh temporary key, which is given its expiry on the same
    pipeline. *)
Definition related_backend_query (r : rmanager) (parent_key : rkey) : M rkey :=
  let model := rm_model r in
  key <- tempkey model ;;
  odmrun "query" model [key; parent_key]
    [AStr (rm_attname r); AStr "set"; AKey parent_key] ;;
  emit (redis "expire" key [AInt expire]) ;;
  ret key.

(** The first loop of [accumulate_delete]: the aggregate script of each
    manager of the model itself. *)
Fixpoint aggregate_related (model : string) (keys : list rkey)
  (related : list rmanager) : M unit :=
  match related with
  | [] => ret tt
  | rmanager :: related =>
      (if same_model model rmanager
       then odmrun "aggregate" model keys [AStr (rm_attname rmanager)]
       else ret tt) ;;
      aggregate_related model keys related
  end.

(** The managers the first loop appends to [rel_managers]. *)
Definition rel_managers (model : string) : list rmanager :=
  filter (fun r => negb (same_model model r)) (models model).

(** The second loop of [accumulate_delete], over [rel_managers]; the
    argument [accumulate_delete] is the recursive call. *)
Fixpoint delete_dependents (accumulate_delete : string -> rkey -> W unit)
  (query_key : rkey) (rel_managers : list rmanager) : W unit :=
  match rel_managers with
  | [] => lift (ret tt)
  | rmanager :: rel_managers =>
      bindW
        (if rm_required rmanager
         then
           bindW (lift (related_backend_query rmanager query_key))
             (fun rq => accumulate_delete (rm_model rmanager) rq)
         else lift (ret tt))
        (fun _ => delete_dependents accumulate_delete query_key rel_managers)
  end.

(** [accumulate_delete] on a query of [model] with key [query_key]; [depth]
    bounds the nesting of the recursive calls. *)
Fixpoint accumulate_delete_query (depth : nat) (model : string)
  (query_key : rkey) : W unit :=
  match depth with
  | O => fun _ => None
  | S depth =>
      let keys := [query_key] in
      bindW (lift (aggregate_related model keys (models model))) (fun _ =>
      bindW (delete_dependents (accumulate_delete_query depth) query_key
               (rel_managers model)) (fun _ =>
      lift (odmrun "delete" model keys [])))
  end.

(** [BackendDataServer.accumulate_delete] *)
Definition accumulate_delete (depth : nat) (backend_query : option backend_query)
  : W unit :=
  match backend_query with
  | None => lift (ret tt)
  | Some bq => accumulate_delete_query depth (bq_model bq) (query_key bq)
  end.

(** The walk of a delete over [model] unfolded to [depth]: the models
    reached through required keys, as [Delete.meta] holds them. *)
Fixpoint unfold (depth : nat) (model : string) : Delete.meta :=
  Delete.Meta model
    (match depth with
     | O => []
     | S depth =>
         map (fun r =>
                Delete.RManager
                  (if negb (same_model model r) && rm_required r
                   then unfold depth (rm_model r)
                   else Delete.Meta (rm_model r) [])
                  (rm_attname r) (rm_required r))
           (models model)
     end).

End AccumulateDelete.

End Cascade.

(** ** Session commit *)

Module Commit.

(** [meta.ordering] as [execute_session] reads it: when [auto] is set,
    [name] is the counter and carries [incrby]; otherwise [name] is the name
    of the ordering field and [field.scorefun] computes the score. *)
Inductive ordering : Type :=
| AutoOrdering (incrby : arg)
| FieldOrdering (name : string) (scorefun : arg -> result arg).

Record meta : Type := Meta {
  model : string;
  m_ordering : option ordering }.

(** [instance.state()] *)
Record instance_state : Type := InstanceState {
  iid : string;
  action : string;
  persistent : bool;
  deleted : bool }.

(** A dirty instance: its state, [is_valid()], the dumped
    [_dbdata['errors']], [_dbdata['cleaned_data']], [pkvalue()] and its
    attributes. *)
Record instance : Type := Instance {
  state_ : instance_state;
  is_valid : bool;
  errors : string;
  cleaned_data : list (string * arg);
  pkvalue : arg;
  attrs : list (string * arg) }.

(** [getattr(instance, name, None)] *)
Fixpoint getattr (attrs : list (string * arg)) (name : string) : arg :=
  match attrs with
  | [] => ANone
  | (n, v) :: attrs => if String.eqb n name then v else getattr attrs name
  end.

Definition is_None (v : arg) : bool :=
  match v with ANone => true | _ => false end.

(** Python truthiness of a value: [None], a zero (integer or float), the
    empty string and the empty tuple are false; a key, a model's meta and a
    JSON dump are strings that are never empty. *)
Definition truthy_arg (v : arg) : bool :=
  match v with
  | ANone => false
  | AInt z => negb (z =? 0)%Z
  | AFloat mantissa _ => negb (mantissa =? 0)%Z
  | AStr s => truthy_str s
  | AKeys ks => truthy ks
  | AKey _ | AMeta _ | ADump _ _ | AOptions _ => true
  end.

(** [v or ''] *)
Definition or_empty (v : arg) : arg :=
  if truthy_arg v then v else AStr "".

(** Modelled from the spec: [stdnet.utils.flat_mapping] is not part of the
    backend; it flattens the changed attributes into alternating key/value
    pairs. *)
Definition flat_mapping (data : list (string * arg)) : list arg :=
  flat_map (fun kv => [AStr (fst kv); snd kv]) data.

(** The score of one instance, lines [score = MIN_FLOAT] to
    [score = meta.ordering.field.scorefun(v)]. *)
Definition instance_score (meta : meta) (instance : instance) : result arg :=
  let score := MIN_FLOAT in
  match m_ordering meta with
  | Some (AutoOrdering incrby) => Ok incrby
  | Some (FieldOrdering name scorefun) =>
      let v := getattr (attrs instance) name in
      if negb (is_None v) then scorefun v else Ok score
  | None => Ok score
  end.

(** The loop over [dirty]: [lua_data] and [processed] grow together. *)
Fixpoint serialize_dirty (meta : meta) (dirty : list instance)
  (lua_data : list arg) (processed : list string)
  : result (list arg * list string) :=
  match dirty with
  | [] => Ok (lua_data, processed)
  | instance :: dirty =>
      let state := state_ instance in
      if negb (is_valid instance) then Raise (FieldValueError (errors instance))
      else
        match instance_score meta instance with
        | Raise e => Raise e
        | Ok score =>
            let data := cleaned_data instance in
            let action := action state in
            let id := AStr (iid state) in
            let id := if negb (persistent state)
                      then or_empty (pkvalue instance) else id in
            let data := flat_mapping data in
            let lua_data :=
              lua_data ++ [AStr action; id; score; AInt (Z.of_nat (length data))] in
            let lua_data := lua_data ++ data in
            serialize_dirty meta dirty lua_data (processed ++ [iid state])
        end
  end.

(** A model session of type ['object']: its model, the compiled delete
    query and the dirty instances. *)
Record session_model : Type := SessionModel {
  sm_meta : meta;
  sm_delete_query : option Delete.backend_query;
  sm_dirty : list instance }.

Section ExecuteSession.

Variable expire : Z.

(** The body of the loop of [execute_session] for a model of type
    ['object']; it returns the [iids] given to the commit script. *)
Definition execute_session_model (sm : session_model) : M (list string) :=
  let meta := sm_meta sm in
  Delete.accumulate_delete expire (sm_delete_query sm) ;;
  let dirty := sm_dirty sm in
  let N := length dirty in
  if (0 <? N)%nat then
    match serialize_dirty meta dirty [AInt (Z.of_nat N)] [] with
    | Raise e => raise e
    | Ok (lua_data, processed) =>
        odmrun "commit" (model meta) [] lua_data ;;
        ret processed
    end
  else ret [].

(** [BackendDataServer.execute_session] over object models, ending with
    [pipe.execute()]. *)
Fixpoint execute_session (session : list session_model) : M unit :=
  match session with
  | [] => emit execute
  | sm :: session => execute_session_model sm ;; execute_session session
  end.

End ExecuteSession.

(** One record of the commit script's argument buffer:
    [(action, id, score, data)]. *)
Definition commit_record : Type := (arg * arg * arg * list arg)%type.

(** Modelled from the spec: the commit script ([odm.lua]) is not part of
    the backend module; its argument buffer holds, per instance,
    [(action, localId, score, payloadLength, ...payload)]. Read [n] such
    records off the buffer. *)
Fixpoint read_records (n : nat) (buffer : list arg) : option (list commit_record) :=
  match n with
  | O => match buffer with [] => Some [] | _ => None end
  | S n =>
      match buffer with
      | action :: id :: score :: AInt len :: rest =>
          if (Z.to_nat len <=? length rest)%nat then
            match read_records n (skipn (Z.to_nat len) rest) with
            | Some records =>
                Some ((action, id, score, firstn (Z.to_nat len) rest) :: records)
            | None => None
            end
          else None
      | _ => None
      end
  end.

(** The argument buffer of a commit script call: a count and the records. *)
Definition read_commit (c : command) : option (list commit_record) :=
  match c with
  | execute_script "odmrun" _ (AStr "commit" :: AMeta _ :: AInt N :: buffer) =>
      read_records (Z.to_nat N) buffer
  | _ => None
  end.

(** One item yielded by [odmrun._wrap_commit]. *)
Inductive commit_item (Float : Type) : Type :=
| instance_session_result (iid : string) (persistent : bool) (id : string)
    (deleted : bool) (score : Float)
| CommitException (msg : string).
Arguments instance_session_result {Float} iid persistent id deleted score.
Arguments CommitException {Float} msg.

(** One [(id, flag, info)] triple of the commit script's response. *)
Record commit_response : Type := CommitResponse {
  r_id : string;
  r_flag : Z;
  r_info : string }.

Section WrapCommit.

(** Python floats, [float(info)] ([None] when it raises [ValueError]) and
    [info.decode(redis_client.encoding)]. *)
Variable Float : Type.
Variable float : string -> option Float.
Variable decode : string -> string.

(** [odmrun._wrap_commit]: the items the generator yields and the exception
    that interrupts it, if any. *)
Fixpoint _wrap_commit (response : list commit_response) (iids : list string)
  : list (commit_item Float) * option exn :=
  match response, iids with
  | id :: response, iid :: iids =>
      if negb (r_flag id =? 0)%Z then
        match float (r_info id) with
        | Some score =>
            let '(rest, e) := _wrap_commit response iids in
            (instance_session_result iid true (r_id id) false score :: rest, e)
        | None => ([], Some (ValueError "could not convert string to float"))
        end
      else
        let msg := decode (r_info id) in
        let '(rest, e) := _wrap_commit response iids in
        (CommitException msg :: rest, e)
  | _, _ => ([], None)
  end.

End WrapCommit.

End Commit.

(** ** Column timeseries: merge *)

Module ColumnTS.

Record columnts : Type := ColumnTS_ {
  ts_id : string;
  session : option string }.

(** An element of a group given to [merge]: a weight or a timeseries. *)
Inductive element : Type :=
| Weight (w : Z)
| Series (s : columnts).

Definition serie : Type := list element.

(** The calls [merge] makes once a session is known. *)
Inductive backend_call : Type :=
| backend_merge (target : string) (series : list serie) (fields : list string)
| session_add (session : string) (target : string).

(** [for s in serie[1:]: if session is None: session = s.session] *)
Fixpoint operands_session (session : option string) (operands : list element)
  : result (option string) :=
  match operands with
  | [] => Ok session
  | s :: operands =>
      match session with
      | None =>
          match s with
          | Series s => operands_session (ColumnTS.session s) operands
          | Weight _ => Raise (AttributeError "session")
          end
      | Some _ => operands_session session operands
      end
  end.

(** The loop over [series]. *)
Fixpoint series_session (session : option string) (series : list serie)
  : result (option string) :=
  match series with
  | [] => Ok session
  | serie :: series =>
      if (length serie <? 2)%nat
      then Raise (ValueError "merge requires tuples of length 2 or more")
      else
        match operands_session session (tl serie) with
        | Ok session => series_session session series
        | Raise e => Raise e
        end
  end.

(** [ColumnTS.merge]: the calls made on the backend and the session, and
    the target bound to its session. *)
Definition merge (self : columnts) (series : list serie) (fields : list string)
  (calls : list backend_call) : list backend_call * result columnts :=
  match series_session (session self) series with
  | Raise e => (calls, Raise e)
  | Ok None => (calls, Raise (SessionNotAvailable "No session available"))
  | Ok (Some session) =>
      (calls ++ [backend_merge (ts_id self) series fields;
                 session_add session (ts_id self)],
       Ok (ColumnTS_ (ts_id self) (Some session)))
  end.

End ColumnTS.

(** ** Script callbacks *)

Module Scripts.

(** A python [dict] with string keys: the items in insertion order, each key
    once. *)
Definition dict (V : Type) : Type := list (string * V).

(** [d[k] = v]: a key already there keeps its place and takes the value. *)
Fixpoint dict_set {V : Type} (d : dict V) (k : string) (v : V) : dict V :=
  match d with
  | [] => [(k, v)]
  | (k', v') :: d =>
      if String.eqb k' k then (k, v) :: d else (k', v') :: dict_set d k v
  end.

(** [d.get(k)] *)
Fixpoint dict_get {V : Type} (d : dict V) (k : string) : option V :=
  match d with
  | [] => None
  | (k', v) :: d => if String.eqb k' k then Some v else dict_get d k
  end.

(** [dict(items)] *)
Definition dict_of {V : Type} (items : list (string * V)) : dict V :=
  fold_left (fun d kv => dict_set d (fst kv) (snd kv)) items [].

(** [zip(it, it)] over one iterator [it]: consecutive items in pairs, a last
    item without a partner being dropped. *)
Fixpoint zip_it {A : Type} (response : list A) : list (A * A) :=
  match response with
  | k :: v :: response => (k, v) :: zip_it response
  | _ => []
  end.

Section PairsToDict.

(** [k.decode(encoding)] *)
Variable decode : string -> string.

(** [pairs_to_dict(response, encoding)] *)
Definition pairs_to_dict (response : list string) : dict string :=
  dict_of (map (fun kv => (decode (fst kv), snd kv)) (zip_it response)).

End PairsToDict.

(** What [check_structures.callback] reads of a structure instance: its
    [state()] and its [id]. *)
Record structure_instance : Type := StructureInstance {
  si_state : Commit.instance_state;
  si_id : string }.

(** The [instance_session_result] built by [check_structures.callback]; its
    second field is the instance itself. *)
Record structure_result : Type := StructureResult {
  sr_iid : string;
  sr_instance : structure_instance;
  sr_id : string;
  sr_deleted : bool;
  sr_score : Z }.

(** [check_structures.callback]: the loop over [zip(response, instances)]
    and the [results] it returns. The name [InvalidTransaction] is bound
    nowhere in the module, so the [raise] statement raises [NameError]. *)
Fixpoint check_structures_callback {T : Type} (response : list T)
  (instances : list structure_instance) (results : list structure_result)
  : result (list structure_result) :=
  match response, instances with
  | type :: response, instance :: instances =>
      let state := si_state instance in
      if Commit.deleted state && Commit.persistent state
      then Raise (NameError "InvalidTransaction")
      else
        check_structures_callback response instances
          (results ++ [StructureResult (Commit.iid state) instance
                         (si_id instance) (Commit.deleted state) 0])
  | _, _ => Ok results
  end.

End Scripts.

(** ** Fields *)

Module Fields.

Section Scorefun.

(** The builtin [int(value)]: the integer, or the exception it raises. *)
Variable int_ : arg -> result Z.

(** [Field.scorefun] *)
Definition Field_scorefun (value : arg) : result arg := Ok value.

(** [IntegerField.scorefun]: the bare [except] turns whatever [int] raises
    into [FieldValueError]. *)
Definition IntegerField_scorefun (value : arg) : result arg :=
  if negb (Commit.is_None value) then
    match int_ value with
    | Ok z => Ok (AInt z)
    | Raise _ => Raise (FieldValueError "Field is not a valid integer")
    end
  else Ok value.

(** [BooleanField.scorefun] *)
Definition BooleanField_scorefun (value : arg) : result arg :=
  if Commit.is_None value then Ok (AInt 0)
  else
    match int_ value with
    | Ok z => Ok (AInt (if (z =? 0)%Z then 0 else 1))
    | Raise e => Raise e
    end.

(** [ForeignKey.scorefun] *)
Definition ForeignKey_scorefun (value : arg) : result arg :=
  Raise (NotImplementedError "").

End Scorefun.

(** The class attributes [Field.__init__] falls back on. *)
Record field_class : Type := FieldClass {
  cls_index : bool;
  cls_ordered : bool;
  cls_hidden : bool }.

(** The arguments of [Field.__init__]; [kw_extras] holds the names of the
    other keyword arguments, in the order given. *)
Record field_kwargs : Type := FieldKwargs {
  kw_unique : bool;
  kw_ordered : option bool;
  kw_primary_key : bool;
  kw_required : bool;
  kw_index : option bool;
  kw_hidden : option bool;
  kw_extras : list string }.

(** The attributes [Field.__init__] sets. *)
Record field : Type := Field {
  primary_key : bool;
  unique : bool;
  required : bool;
  index : bool;
  ordered : bool;
  hidden : bool }.

(** [TypeError], raised by [Field.error_extras]. *)
Inductive type_error : Type :=
| TypeError (msg : string).

(** [Field.__init__] with the base class's [get_encoder] and
    [_handle_extras]: [charset] and [default] are popped off the extras,
    and any name left makes [error_extras] raise on the first. *)
Definition Field_init (cls : field_class) (kw : field_kwargs)
  : type_error + field :=
  let primary_key := kw_primary_key kw in
  let index :=
    match kw_index kw with Some index => index | None => cls_index cls end in
  let '(unique, required, index) :=
    if primary_key then (true, true, true)
    else (kw_unique kw, kw_required kw, if kw_unique kw then true else index) in
  let extras :=
    filter (fun k => negb (String.eqb k "charset")) (kw_extras kw) in
  let ordered :=
    match kw_ordered kw with Some o => o | None => cls_ordered cls end in
  let hidden :=
    match kw_hidden kw with Some h => h | None => cls_hidden cls end in
  let extras := filter (fun k => negb (String.eqb k "default")) extras in
  match extras with
  | key :: _ =>
      inl (TypeError
             (String.append "__init__() got an unexepcted keyword argument '"
                (String.append key "'")))
  | [] => inr (Field primary_key unique required index ordered hidden)
  end.

(** What [ForeignKey._set_relmodel] reads and writes of the related model's
    [meta]: its name, [related] (related name to the name of the model that
    holds the key) and the names in [dfields]. *)
Record relmeta : Type := RelMeta {
  rel_name : string;
  rel_related : Scripts.dict string;
  rel_dfields : list string }.

Definition contains (names : list string) (name : string) : bool :=
  existsb (String.eqb name) names.

Section SetRelmodel.

(** What [raise stdnet.FieldError(...)] ends in: the module binds the name
    [stdnet] only if the star import of [stdnet.exceptions] brings it. *)
Variable duplicated : exn.

(** [ForeignKey._set_relmodel] with [_register_with_related_model], for a
    key held by the model [model] and declared with [related_name]: the
    related name settled on and the related model's [meta] after the
    registration. *)
Definition _set_relmodel (model : string) (related_name : option string)
  (meta : relmeta) : result (string * relmeta) :=
  let related_name :=
    match (if Query.truthy_opt related_name then related_name else None) with
    | Some related_name => related_name
    | None => String.append model "_set"
    end in
  if negb (contains (map fst (rel_related meta)) related_name)
     && negb (contains (rel_dfields meta) related_name)
  then
    Ok (related_name,
        RelMeta (rel_name meta)
          (Scripts.dict_set (rel_related meta) related_name model)
          (rel_dfields meta))
  else Raise duplicated.

End SetRelmodel.

End Fields.

(** ** Flat JSON fields *)

Module JsonTools.

#[local] Set Warnings "-register-all".

(** A value given to a JSON field: a dictionary, or anything else. *)
Inductive jvalue : Type :=
| JLeaf (v : string)
| JDict (items : list (string * jvalue)).

Definition truthy_prefix (prefix : option string) : option string :=
  match prefix with
  | Some p => if truthy_str p then Some p else None
  | None => None
  end.

Section DictFlat.

(** The arguments [dict_flat_generator] passes down unchanged: [attname],
    [splitter], [dumps] and the exception class [error]. *)
Variable attname : option string.
Variable splitter : string.
Variable dumps : option (jvalue -> result string).
Variable error : string -> exn.

(** [dumps(value) if dumps else value]; [dumps] raises on a value it cannot
    encode. *)
Definition dumped (value : jvalue) : result (string + jvalue) :=
  match dumps with
  | Some dumps =>
      match dumps value with
      | Ok s => Ok (inl s)
      | Raise e => Raise e
      end
  | None => Ok (inr value)
  end.

(** [dict_flat_generator]: the pairs it yields, or the exception that ends
    the iteration. The recursive call passes [field] in the place of
    [recursive], so the value under an empty key is never unwound. *)
Fixpoint dict_flat_generator (value : jvalue) (prefix : option string)
  (recursive : bool) {struct value} : result (list (string * (string + jvalue))) :=
  let leaf :=
    match truthy_prefix prefix with
    | None => Raise (error "Cannot assign a non dictionary to a JSON field")
    | Some prefix =>
        let name :=
          match truthy_prefix attname with
          | Some attname => String.append attname (String.append splitter prefix)
          | None => prefix
          end in
        match dumped value with
        | Raise e => Raise e
        | Ok v => Ok [(name, v)]
        end
    end in
  match value with
  | JLeaf _ => leaf
  | JDict items =>
      if recursive then
        (fix loop (items : list (string * jvalue))
           : result (list (string * (string + jvalue))) :=
           match items with
           | [] => Ok []
           | (field, val) :: items =>
               let key := prefix in
               let key :=
                 if truthy_str field then
                   match truthy_prefix prefix with
                   | Some prefix =>
                       Some (String.append prefix (String.append splitter field))
                   | None => Some field
                   end
                 else key in
               match dict_flat_generator val key (truthy_str field) with
               | Raise e => Raise e
               | Ok pairs =>
                   match loop items with
                   | Raise e => Raise e
                   | Ok rest => Ok (pairs ++ rest)
                   end
               end
           end) items
      else leaf
  end.

(** The loop of [dict_flat_generator] over the items of a dictionary, by
    name. *)
Definition flat_items (prefix : option string)
  : list (string * jvalue) -> result (list (string * (string + jvalue))) :=
  fix loop (items : list (string * jvalue))
    : result (list (string * (string + jvalue))) :=
    match items with
    | [] => Ok []
    | (field, val) :: items =>
        let key := prefix in
        let key :=
          if truthy_str field then
            match truthy_prefix prefix with
            | Some prefix =>
                Some (String.append prefix (String.append splitter field))
            | None => Some field
            end
          else key in
        match dict_flat_generator val key (truthy_str field) with
        | Raise e => Raise e
        | Ok pairs =>
            match loop items with
            | Raise e => Raise e
            | Ok rest => Ok (pairs ++ rest)
            end
        end
    end.

End DictFlat.

(** The exceptions of [flat_to_nested]: [ValueError] of [split] on an empty
    separator, [keys[-1]] on an empty list, and an item assignment on a
    value that is no dictionary. *)
Inductive nest_error : Type :=
| EmptySeparator
| IndexError
| TypeError.

(** The pieces of [s.split(sep)] for a separator that is not empty: [skip]
    counts the characters of a separator found that are still to be passed,
    [cur] is the piece being read. *)
Fixpoint split_go (sep s : string) (skip : nat) (cur : string) : list string :=
  match s with
  | EmptyString => [cur]
  | String c rest =>
      match skip with
      | S skip => split_go sep rest skip cur
      | O =>
          if String.prefix sep s
          then cur :: split_go sep rest (String.length sep - 1) EmptyString
          else split_go sep rest 0 (String.append cur (String c EmptyString))
      end
  end.

(** [s.split(sep)]: [ValueError] on an empty separator. *)
Definition split (sep s : string) : nest_error + list string :=
  if truthy_str sep then inr (split_go sep s 0 EmptyString)
  else inl EmptySeparator.

(** Does the separator occur in the string? *)
Fixpoint occurs (sep s : string) : bool :=
  match s with
  | EmptyString => false
  | String c rest => String.prefix sep s || occurs sep rest
  end.

(** The walk of [flat_to_nested] down [keys[:-1]] from the dictionary [d],
    and the assignment of [v] under the last key [lk]. *)
Fixpoint nest_set (d : Scripts.dict jvalue) (keys : list string) (lk : string)
  (v : jvalue) : nest_error + Scripts.dict jvalue :=
  match keys with
  | [] =>
      match Scripts.dict_get d lk with
      | None => inr (Scripts.dict_set d lk v)
      | Some (JDict items) =>
          inr (Scripts.dict_set d lk (JDict (Scripts.dict_set items "" v)))
      | Some (JLeaf _) => inl TypeError
      end
  | k :: keys =>
      let nd :=
        match Scripts.dict_get d k with
        | None => []
        | Some (JDict nd) => nd
        | Some nd => [("", nd)]
        end in
      match nest_set nd keys lk v with
      | inl e => inl e
      | inr nd => inr (Scripts.dict_set d k (JDict nd))
      end
  end.

Section FlatToNested.

(** [attname], [separator], [loads] and whether an [instance] is given.
    The [loads] that [JSONField.value_from_data] passes returns on every
    string: it catches what json raises and returns [None]. *)
Variable attname : option string.
Variable separator : string.
Variable loads : option (string -> jvalue).
Variable instance : bool.

(** [flat_to_nested]: the loop over [data], from the dictionary [val] built
    so far and the attributes set on the instance so far. *)
Fixpoint flat_to_nested_loop (data : list (string * string))
  (val : Scripts.dict jvalue) (injected : list (string * jvalue))
  : nest_error + (Scripts.dict jvalue * list (string * jvalue)) :=
  match data with
  | [] => inr (val, injected)
  | (key, raw) :: data =>
      let popped :=
        match split separator key with
        | inl e => inl e
        | inr keys =>
            match truthy_prefix attname with
            | Some attname =>
                match keys with
                | [] => inl IndexError
                | k0 :: keys =>
                    if negb (String.eqb k0 attname) then inr None
                    else inr (Some keys)
                end
            | None => inr (Some keys)
            end
        end in
      match popped with
      | inl e => inl e
      | inr None => flat_to_nested_loop data val injected
      | inr (Some keys) =>
          let v := match loads with Some loads => loads raw | None => JLeaf raw end in
          let injected := if instance then injected ++ [(key, v)] else injected in
          match rev keys with
          | [] => inl IndexError
          | lk :: init =>
              match nest_set val (rev init) lk v with
              | inl e => inl e
              | inr val => flat_to_nested_loop data val injected
              end
          end
      end
  end.

(** [flat_to_nested(data, instance, attname, separator, loads)] *)
Definition flat_to_nested (data : Scripts.dict string)
  : nest_error + (Scripts.dict jvalue * list (string * jvalue)) :=
  flat_to_nested_loop data [] [].

End FlatToNested.

Section Unwind.

(** [self.attname], [self.dumps], which raises [FieldValueError] on a
    value json cannot encode, and [self.dumps(None)] and [self.dumps('')],
    which json always encodes. *)
Variable attname : string.
Variable dumps : jvalue -> result string.
Variable dumps_None : string.
Variable dumps_empty : string.

(** The value of a yielded pair: with [dumps] given the generator yields
    strings only. *)
Definition as_string (v : string + jvalue) : string :=
  match v with
  | inl dumped => dumped
  | inr _ => EmptyString
  end.

(** The branch of [JSONField.serialize] for a field declared with
    [as_string = False], on a value that is no string: the flat dictionary,
    given its root key. *)
Definition serialize_unwind (value : jvalue) : result (Scripts.dict string) :=
  match dict_flat_generator (Some attname) "__" (Some dumps)
          (fun msg => FieldValueError msg) value None true with
  | Raise e => Raise e
  | Ok pairs =>
      let value :=
        Scripts.dict_of
          (map (fun pair => (fst pair, as_string (snd pair))) pairs) in
      if negb (truthy value) then Ok [(attname, dumps_None)]
      else
        match Scripts.dict_get value attname with
        | None => Ok (Scripts.dict_set value attname dumps_empty)
        | Some _ => Ok value
        end
  end.

End Unwind.

End JsonTools.

(** ** Related fields of a load *)

Module Related.






End Related.

(** ** Reading a trace *)

(** The key an [expire] command is given. *)
Definition expire_key (c : command) : option rkey :=
  match c with
  | redis name key _ => if String.eqb name "expire" then Some key else None
  | _ => None
  end.

(** The keys of the [expire] commands of a trace, in order. *)
Fixpoint expired_keys (cmds : list command) : list rkey :=
  match cmds with
  | [] => []
  | c :: cmds =>
      match expire_key c with
      | Some key => key :: expired_keys cmds
      | None => expired_keys cmds
      end
  end.

(** Between [st] and [st'] commands were only appended to the pipeline, and
    the temporary keys made in between are, in order, the keys of the
    [expire] commands queued in between. *)
Definition logged (st st' : state) : Prop :=
  exists (cmds : list command) (ts : list rkey),
    pipe st' = pipe st ++ cmds /\
    temps st' = temps st ++ ts /\
    expired_keys cmds = ts.

(** Is the command a call of the [odmrun] script with this sub-command? *)
Definition is_odmrun (sub : string) (c : command) : bool :=
  match c with
  | execute_script name _ (AStr s :: _) =>
      String.eqb name "odmrun" && String.eqb s sub
  | _ => false
  end.

(** Is the key one made by [backend.tempkey]? *)
Definition is_tempkey (k : rkey) : bool :=
  match k with
  | basekey _ [P p; U _] => String.eqb p TMP
  | _ => false
  end.

(** The aggregate script call for a manager of the model itself. *)
Definition aggregate_command (meta : Delete.meta) (keys : list rkey)
  (r : Delete.rmanager) : command :=
  execute_script "odmrun" keys
    [AStr "aggregate"; AMeta (Delete.name meta); AStr (Delete.rm_attname r)].

(** The delete script call for a model over a query key. *)
Definition delete_command (model : string) (key : rkey) : command :=
  execute_script "odmrun" [key] [AStr "delete"; AMeta model].

(** The commands end with the delete script call of [model] over some
    temporary key. *)
Definition ends_with_delete (model : string) (cmds : list command) : Prop :=
  exists (before : list command) (key : rkey),
    is_tempkey key = true /\ cmds = before ++ [delete_command model key].

(** What the delete of one model does, whatever the key and the state: it
    returns, having appended commands that end with the model's own delete
    script call over that key. *)
Definition delete_appends (expire : Z) (m : Delete.meta) : Prop :=
  forall (key : rkey) (st : state),
  exists (before : list command) (st' : state),
    Delete.accumulate_delete_query expire m key st = (st', Ok tt) /\
    pipe st' = pipe st ++ before ++ [delete_command (Delete.name m) key].

(** The managers of other models whose foreign key is required. *)
Definition required_dependents (meta : Delete.meta) : list Delete.rmanager :=
  filter (fun r => negb (Delete.same_model meta r) && Delete.rm_required r)
    (Delete.related meta).

(** The aggregate script call of a model for one of its relations to
    itself. *)
Definition aggregate_call (model : string) (key : rkey)
  (r : Cascade.rmanager) : command :=
  execute_script "odmrun" [key]
    [AStr "aggregate"; AMeta model; AStr (Cascade.rm_attname r)].





(** Every model of [trapped] has a relation with a required key from another
    model of [trapped]: the dependents of a model of [trapped] never run
    out. Models on a cycle of required keys are the finite case. *)
Definition closed_under_required (models : Cascade.schema)
  (trapped : string -> Prop) : Prop :=
  forall model, trapped model ->
    exists r, In r (models model)
              /\ Cascade.rm_required r = true
              /\ Cascade.rm_model r <> model
              /\ trapped (Cascade.rm_model r).


(** The argument buffer of a list of commit records. *)
Definition encode_records (records : list Commit.commit_record) : list arg :=
  flat_map (fun r : Commit.commit_record =>
              let '(action, id, score, data) := r in
              [action; id; score; AInt (Z.of_nat (length data))] ++ data)
    records.

(** The score the commit of an instance must carry: the sentinel without an
    ordering or when the ordering field holds [None], the counter of an
    automatic ordering, the field's [scorefun] of the value otherwise. *)
Definition expected_score (meta : Commit.meta) (instance : Commit.instance)
  (score : arg) : Prop :=
  match Commit.m_ordering meta with
  | None => score = AFloat (-1) 99
  | Some (Commit.AutoOrdering incrby) => score = incrby
  | Some (Commit.FieldOrdering name scorefun) =>
      match Commit.getattr (Commit.attrs instance) name with
      | ANone => score = AFloat (-1) 99
      | v => scorefun v = Ok score
      end
  end.

(** A commit record carries what [execute_session] read off the instance. *)
Definition record_of (meta : Commit.meta) (instance : Commit.instance)
  (r : Commit.commit_record) : Prop :=
  let '(action, id, score, data) := r in
  action = AStr (Commit.action (Commit.state_ instance)) /\
  expected_score meta instance score /\
  data = Commit.flat_mapping (Commit.cleaned_data instance).

(** The operands of a group, the elements after its weight, are all
    timeseries. *)
Definition operands_are_series (s : ColumnTS.serie) : Prop :=
  Forall (fun e => exists ts, e = ColumnTS.Series ts) (tl s).

(** No operand of the group is bound to a session. *)
Definition operands_without_session (s : ColumnTS.serie) : Prop :=
  Forall (fun e => forall ts, e = ColumnTS.Series ts -> ColumnTS.session ts = None)
    (tl s).

(** Is the command the run of the pipeline? *)
Definition is_execute (c : command) : bool :=
  match c with
  | execute => true
  | _ => false
  end.

(** A command that neither runs the pipeline nor calls the commit script. *)
Definition quiet (c : command) : Prop :=
  is_execute c = false /\ is_odmrun "commit" c = false.



(** The last value bound to a decoded key among the pairs. *)
Fixpoint last_binding (decode : string -> string) (kvs : list (string * string))
  (k : string) : option string :=
  match kvs with
  | [] => None
  | (k', v) :: kvs =>
      match last_binding decode kvs k with
      | Some v' => Some v'
      | None => if String.eqb (decode k') k then Some v else None
      end
  end.

(** The flat reply holding the pairs. *)
Definition flat_pairs (kvs : list (string * string)) : list string :=
  flat_map (fun kv => [fst kv; snd kv]) kvs.

(** The result [check_structures.callback] reports for an instance. *)
Definition result_of (instance : Scripts.structure_instance)
  : Scripts.structure_result :=
  Scripts.StructureResult (Commit.iid (Scripts.si_state instance)) instance
    (Scripts.si_id instance) (Commit.deleted (Scripts.si_state instance)) 0.

(** An instance flagged deleted that is still persistent. *)
Definition undeletable (instance : Scripts.structure_instance) : bool :=
  Commit.deleted (Scripts.si_state instance)
  && Commit.persistent (Scripts.si_state instance).

(** The sessions the operands of one group are bound to. *)
Definition sessions_of (operands : list ColumnTS.element) : list string :=
  flat_map (fun e => match e with
                     | ColumnTS.Series ts =>
                         match ColumnTS.session ts with
                         | Some x => [x]
                         | None => []
                         end
                     | ColumnTS.Weight _ => []
                     end) operands.

(** The sessions of the operands of the groups, in the order [merge] meets
    them. *)
Definition operand_sessions (series : list ColumnTS.serie) : list string :=
  flat_map
    (fun s =>
       flat_map (fun e => match e with
                          | ColumnTS.Series ts =>
                              match ColumnTS.session ts with
                              | Some x => [x]
                              | None => []
                              end
                          | ColumnTS.Weight _ => []
                          end) (tl s))
    series.

(** The session [merge] settles on: the target's own, otherwise the first an
    operand is bound to. *)
Definition chosen_session (self : ColumnTS.columnts)
  (series : list ColumnTS.serie) : option string :=
  match ColumnTS.session self with
  | Some s => Some s
  | None => hd_error (operand_sessions series)
  end.

(** What [_wrap_commit] yields for a response triple and its [iid], when it
    yields. *)
Definition wrapped {Float : Type} (float : string -> option Float)
  (decode : string -> string) (r : Commit.commit_response) (iid : string)
  (item : Commit.commit_item Float) : Prop :=
  if (Commit.r_flag r =? 0)%Z
  then item = Commit.CommitException (decode (Commit.r_info r))
  else exists score,
      float (Commit.r_info r) = Some score
      /\ item = Commit.instance_session_result iid true (Commit.r_id r) false score.

(** The keys a command names. *)
Definition command_keys (c : command) : list rkey :=
  match c with
  | redis _ key _ => [key]
  | execute_script _ keys _ => keys
  | execute => []
  end.

(** The id of a structure. *)
Definition structure_key (s : Structures.structure) : rkey :=
  match s with
  | Structures.String_ id _ => id
  | Structures.Set_ id _ => id
  | Structures.Zset id _ => id
  | Structures.List_ id _ => id
  | Structures.Hash id _ => id
  end.

(** A name under the namespace of [attname]: [attname], the splitter and a
    path that is not empty, or the path alone without an [attname]. *)
Definition qualified (attname : option string) (splitter : string)
  (name : string) : Prop :=
  exists path,
    truthy_str path = true
    /\ name = match JsonTools.truthy_prefix attname with
              | Some attname => String.append attname (String.append splitter path)
              | None => path
              end.



(** The values a run of [dict_flat_generator] reaches its [yield] with, in
    order: the value itself when it is no dictionary or is not unwound, and
    otherwise those of its items, the item under the empty key not being
    unwound. *)
Fixpoint yielded (value : JsonTools.jvalue) (recursive : bool)
  : list JsonTools.jvalue :=
  match value with
  | JsonTools.JLeaf _ => [value]
  | JsonTools.JDict items =>
      if recursive
      then flat_map (fun kv => yielded (snd kv) (truthy_str (fst kv))) items
      else [value]
  end.

(** A flat item with its value loaded: [loads(data[key])], or the value
    itself without [loads]. *)
Definition loaded (loads : option (string -> JsonTools.jvalue))
  (kv : string * string) : string * JsonTools.jvalue :=
  (fst kv,
   match loads with
   | Some loads => loads (snd kv)
   | None => JsonTools.JLeaf (snd kv)
   end).

(** ** Concrete inputs *)

Module Examples.

Import Structures.

Definition st0 : state := State [] 0 [].

Definition a_set : structure := Set_ (structure_id "s") (Cache ["a"] []).

Definition a_list : structure :=
  List_ (structure_id "l") (ListCache ["a"] ["b"]).

(** A model [book] with primary key [id] and a field [title], unordered. *)
Definition book : Query.meta :=
  Query.Meta "book" "id" None
    [("id", Query.Field "id"); ("title", Query.Field "title")]
    (Query.OrderingInfo "id" "numeric" false "book" "id" None)
    (fun fields => (fields, fields)).

(** All the books: the primary key index. *)
Definition all_books : Query.queryelem :=
  Query.QueryElem "set" "id" book [] None None.

(** The books with a given title. *)
Definition by_title : Query.queryelem :=
  Query.QueryElem "set" "title" book [Query.CPair "value" (Query.VStr "emma")]
    None None.

(** The union of the two. *)
Definition a_union : Query.queryelem :=
  Query.QueryElem "union" "" book [Query.CQuery all_books; Query.CQuery by_title]
    None None.

(** [unique_tuple]: the elements of both, each once, in order. *)
Definition unique_tuple (a b : list string) : list string :=
  rev (nodup string_dec (rev (a ++ b))).

(** The books, compiled to the primary key index, asked for the primary
    key only. *)
Definition books_pk : Query.RedisQuery :=
  {| Query.rq_meta := book;
     Query.rq_ordering := None;
     Query.rq_get_field := Some "id";
     Query.rq_fields := [];
     Query.rq_select_related := [];
     Query.rq_related := [];
     Query.rq_built := Query.BackendQuery (basekey "book" [P "id"]) None |}.

(** The books ordered by title. *)
Definition books_by_title : Query.RedisQuery :=
  {| Query.rq_meta := book;
     Query.rq_ordering :=
       Some (Query.OrderingInfo "title" "text" false "book" "id" None);
     Query.rq_get_field := None;
     Query.rq_fields := [];
     Query.rq_select_related := [];
     Query.rq_related := [];
     Query.rq_built := Query.BackendQuery (basekey "book" [P "id"]) None |}.

(** The titles of the books, as [_build] leaves the query. *)
Definition books_titles : Query.RedisQuery :=
  {| Query.rq_meta := book;
     Query.rq_ordering := None;
     Query.rq_get_field := Some "title";
     Query.rq_fields := [];
     Query.rq_select_related := [];
     Query.rq_related := [];
     Query.rq_built :=
       Query.BackendQuery (basekey "book" [P "tmp"; U 0]) (Some "llen") |}.

(** The books, unordered, all fields. *)
Definition books_unordered : Query.RedisQuery :=
  {| Query.rq_meta := book;
     Query.rq_ordering := None;
     Query.rq_get_field := None;
     Query.rq_fields := [];
     Query.rq_select_related := [];
     Query.rq_related := [];
     Query.rq_built := Query.BackendQuery (basekey "book" [P "id"]) None |}.

(** All the books, projected on their titles. *)
Definition all_titles : Query.queryelem :=
  Query.QueryElem "set" "id" book [] None (Some "title").

(** Decimal digits read as a number: a stand-in for [float]. *)
Fixpoint digits (s : string) (acc : Z) : option Z :=
  match s with
  | EmptyString => Some acc
  | String c s =>
      let n := Ascii.nat_of_ascii c in
      if ((48 <=? n) && (n <=? 57))%nat
      then digits s (10 * acc + Z.of_nat (n - 48))%Z
      else None
  end.

Definition float (s : string) : option Z :=
  match s with
  | EmptyString => None
  | _ => digits s 0%Z
  end.

(** The response to a commit of three instances, the second refused. *)
Definition response : list Commit.commit_response :=
  [Commit.CommitResponse "1" 1 "10";
   Commit.CommitResponse "2" 0 "title is required";
   Commit.CommitResponse "3" 1 "30"].

(** Scores of an integer field. *)
Definition int_scorefun (v : arg) : result arg :=
  match v with
  | AInt z => Ok (AInt z)
  | ANone => Ok ANone
  | _ => Raise (FieldValueError "Field is not a valid integer")
  end.

(** Books ordered by [year]. *)
Definition book_by_year : Commit.meta :=
  Commit.Meta "book" (Some (Commit.FieldOrdering "year" int_scorefun)).

Definition emma : Commit.instance :=
  Commit.Instance (Commit.InstanceState "a" "add" false false) true ""
    [("title", AStr "emma"); ("year", AInt 1815)] ANone
    [("title", AStr "emma"); ("year", AInt 1815)].

Definition undated : Commit.instance :=
  Commit.Instance (Commit.InstanceState "b" "change" true false) true ""
    [("title", AStr "notes")] (AInt 7)
    [("title", AStr "notes"); ("year", ANone)].

Definition book_session : Commit.session_model :=
  Commit.SessionModel book_by_year None [emma; undated].

(** A timeseries bound to no session. *)
Definition ts1 : ColumnTS.columnts := ColumnTS.ColumnTS_ "ts1" None.

(** A book that fails validation. *)
Definition untitled : Commit.instance :=
  Commit.Instance (Commit.InstanceState "c" "add" false false) false
    "title is required" [] ANone [].

Definition bad_session : Commit.session_model :=
  Commit.SessionModel book_by_year None [emma; untitled].

(** A timeseries bound to the session [s2]. *)
Definition ts2 : ColumnTS.columnts := ColumnTS.ColumnTS_ "ts2" (Some "s2").

(** A stand-in for the builtin [int]: integers as they are, strings of
    digits read, anything else refused. *)
Definition int_ (v : arg) : result Z :=
  match v with
  | AInt z => Ok z
  | AStr s =>
      match float s with
      | Some z => Ok z
      | None => Raise (ValueError "invalid literal for int()")
      end
  | _ => Raise (ValueError "int() argument must be a string or a number")
  end.

(** A stand-in for the JSON dump: a scalar is dumped as its text, and the
    scalar [object()] is one json cannot encode. *)
Definition dumps (v : JsonTools.jvalue) : result string :=
  match v with
  | JsonTools.JLeaf s =>
      if String.eqb s "object()"
      then Raise (FieldValueError "object() is not JSON serializable")
      else Ok s
  | JsonTools.JDict _ => Ok "{}"
  end.

(** Authors: a required key from [book], an optional one from [prize], and
    an optional key [mentor] from [author] itself. *)
Definition author : Delete.meta :=
  Delete.Meta "author"
    [Delete.RManager (Delete.Meta "author" []) "mentor_id" false;
     Delete.RManager (Delete.Meta "book" []) "author_id" true;
     Delete.RManager (Delete.Meta "prize" []) "winner_id" false].

(** A library: books hold a required key to their author and reviews a
    required key to their book; prizes hold an optional key to an author,
    and authors an optional key [mentor] to an author. *)
Definition library : Cascade.schema :=
  fun model =>
    if String.eqb model "author" then
      [Cascade.RManager "author" "mentor_id" false;
       Cascade.RManager "book" "author_id" true;
       Cascade.RManager "prize" "winner_id" false]
    else if String.eqb model "book" then
      [Cascade.RManager "review" "book_id" true]
    else [].


(** Two models with a required key to each other. *)
Definition couple : Cascade.schema :=
  fun model =>
    if String.eqb model "account" then [Cascade.RManager "owner" "account_id" true]
    else if String.eqb model "owner" then [Cascade.RManager "account" "owner_id" true]
    else [].

End Examples.

(** * Properties *)

(** ** Structure flush *)

Module FlushProps.

Import Structures.

Lemma count_app (f : command -> bool) (l1 l2 : list command) :
  count f (l1 ++ l2) = count f l1 + count f l2.
Proof.
  unfold count. now rewrite filter_app, length_app.
Qed.

Ltac flush_case :=
  cbn [fst snd];
  match goal with
  | |- exists cmds, ?c ++ ?l = ?c ++ cmds /\ _ => exists l
  | |- exists cmds, (?c ++ ?l1) ++ ?l2 = ?c ++ cmds /\ _ => exists (l1 ++ l2)
  | |- exists cmds, ?c = ?c ++ cmds /\ _ => exists (@nil command)
  end;
  rewrite <- ?app_assoc, ?app_nil_r;
  repeat split; try reflexivity; cbn; lia.

(** C7 (as amended). For each of the kinds set, ordered set, hash, list and
    string: [flush] appends one command per non-empty pending container and
    nothing else, so no command (and the result [None]) when nothing is
    pending, and [True] otherwise; at most one removal command and at most
    one additive command, two pushes for a list; and [flush] leaves the
    cache as it is, so a second [flush] on the same cache queues the same
    commands again. *)
Theorem flush_one_command_per_pending_container (s : structure) (c : client) :
  exists cmds : list command,
    fst (flush s c) = c ++ cmds /\
    length cmds = Nat.b2n (fst (pending s)) + Nat.b2n (snd (pending s)) /\
    snd (flush s c)
      = (if fst (pending s) || snd (pending s) then Some true else None) /\
    count removal cmds <= 1 /\
    count additive cmds <= (if is_list s then 2 else 1) /\
    flush s (fst (flush s c)) = (c ++ cmds ++ cmds, snd (flush s c)).
Proof.
  destruct s as [id data | id [a r] | id [a r] | id [f b] | id [a r]];
    cbn [flush pending fst snd is_list];
    unfold String_flush, Set_flush, Zset_flush, List_flush, Hash_flush;
    cbn [toadd toremove front back].
  - destruct (truthy_str data); flush_case.
  - destruct (truthy a), (truthy r); flush_case.
  - destruct (truthy a), (truthy r); flush_case.
  - destruct (truthy f), (truthy b); flush_case.
  - destruct (truthy a), (truthy r); flush_case.
Qed.

(** C7 (as stated) fails: flushing a set with one pending addition twice,
    with no cache write in between, queues [sadd] twice; and one flush of a
    list with both ends pending queues two additive commands. *)
Lemma flush_twice_repeats_commands :
  fst (flush Examples.a_set (fst (flush Examples.a_set [])))
    = [redis "sadd" (structure_id "s") [AStr "a"];
       redis "sadd" (structure_id "s") [AStr "a"]]
  /\ count additive (fst (flush Examples.a_list [])) = 2.
Proof.
  split; reflexivity.
Qed.

(** C10. [TS.flush]: with pending removals it raises [NotImplementedError],
    the additive script being already queued when additions were pending
    too; it returns [True] exactly when there are additions and no
    removals, and then it has queued exactly the one [ts_commands add]
    call. *)
Theorem TS_flush_removals_not_implemented
  (id : rkey) (cache : cache (Z * string) Z) (c : client) :
  let add := execute_script "ts_commands" [id]
               (AStr "add" :: flat score_value (toadd cache)) in
  (toremove cache <> [] ->
     TS_flush id cache c
       = (c ++ (if truthy (toadd cache) then [add] else []),
          Raise (NotImplementedError "Cannot remove. TSDEL not implemented")))
  /\ (toremove cache = [] ->
        TS_flush id cache c
          = if truthy (toadd cache) then (c ++ [add], Ok (Some true))
            else (c, Ok None))
  /\ (snd (TS_flush id cache c) = Ok (Some true)
        <-> toadd cache <> [] /\ toremove cache = []).
Proof.
  destruct cache as [a r]; cbn [toadd toremove]. unfold TS_flush.
  cbn [toadd toremove].
  destruct a as [|x a], r as [|y r]; cbn; rewrite ?app_nil_r;
    repeat split; try congruence; intros; try easy.
Qed.

End FlushProps.

(** ** The query compiler *)

Module QueryProps.

Import Query.

Lemma expired_keys_app (l1 l2 : list command) :
  expired_keys (l1 ++ l2) = expired_keys l1 ++ expired_keys l2.
Proof.
  induction l1 as [|c l1 IH]; cbn [app expired_keys]; [reflexivity|].
  destruct (expire_key c); rewrite IH; reflexivity.
Qed.

Lemma logged_refl (st : state) : logged st st.
Proof.
  exists [], []. now rewrite !app_nil_r.
Qed.

Lemma logged_trans (st1 st2 st3 : state) :
  logged st1 st2 -> logged st2 st3 -> logged st1 st3.
Proof.
  intros (c1 & t1 & Hp1 & Ht1 & He1) (c2 & t2 & Hp2 & Ht2 & He2).
  exists (c1 ++ c2), (t1 ++ t2).
  rewrite Hp2, Hp1, Ht2, Ht1, expired_keys_app, He1, He2, !app_assoc.
  auto.
Qed.

(** A segment given by its commands and temporary keys. *)
Lemma logged_intro (p : client) (u u' : nat) (t : list rkey)
  (cmds : list command) (ts : list rkey) :
  expired_keys cmds = ts ->
  logged (State p u t) (State (p ++ cmds) u' (t ++ ts)).
Proof.
  intros H. exists cmds, ts. auto.
Qed.

Ltac run_build :=
  cbv beta iota delta
    [bind ret raise emit tempkey odmrun where_run pipe uid temps] in *.

Lemma build_element_logged (expire : Z) (keyword name : string) (meta : meta)
  (where_ : option (string * list string)) (gf : option string)
  (keys : list rkey) (args : list arg) (st st' : state) (be : backend_query) :
  _build_element expire keyword name meta where_ gf keys args st = (st', Ok be) ->
  logged st st'.
Proof.
  destruct st as [p u t]. unfold _build_element.
  destruct where_ as [[w lo]|].
  - (* where_run raises *)
    run_build.
    destruct (String.eqb keyword "set");
      [destruct (String.eqb name (pkname meta) && negb (truthy args))|
       destruct (String.eqb keyword "intersect");
       [|destruct (String.eqb keyword "union");
         [|destruct (String.eqb keyword "diff")]]];
      destruct (truthy lo); discriminate.
  - run_build. intros H.
    destruct (String.eqb keyword "set");
      [destruct (String.eqb name (pkname meta) && negb (truthy args))|
       destruct (String.eqb keyword "intersect");
       [|destruct (String.eqb keyword "union");
         [|destruct (String.eqb keyword "diff"); [|discriminate]]]];
      (destruct (if truthy_opt gf then gf else None) as [g|];
       [destruct (negb (String.eqb g (pkname meta)));
        [destruct (get_field (dfields meta) g) as [f|]; [|discriminate]|]|]);
      injection H as <- _;
      rewrite <- ?app_assoc; cbn [app];
      destruct (ordering meta);
      first [ apply logged_refl
            | rewrite <- (app_nil_r t) at 1; apply logged_intro; reflexivity
            | apply logged_intro; reflexivity ].
Qed.

Lemma queryelem_children_ind (Pq : queryelem -> Prop)
  (H : forall keyword name m children where_ gf,
      Forall (fun c => match c with CQuery q => Pq q | CPair _ _ => True end)
        children ->
      Pq (QueryElem keyword name m children where_ gf)) :
  forall q, Pq q.
Proof.
  fix IH 1. intros [keyword name m children where_ gf]. apply H.
  induction children as [|c cs IHcs]; constructor; [|exact IHcs].
  destruct c as [q|]; [apply IH | exact I].
Qed.

Lemma _build_unfold (expire : Z) (keyword name : string) (m : meta)
  (children : list child) (where_ : option (string * list string))
  (gf : option string) :
  _build expire (QueryElem keyword name m children where_ gf)
  = ('(keys, args) <- children_loop expire children [] [] ;;
     _build_element expire keyword name m where_ gf keys args).
Proof.
  cbn [_build].
  change (fix loop (cs : list child) (keys : list rkey) (args : list arg)
            {struct cs} : M (list rkey * list arg) := _)
    with (children_loop expire).
  reflexivity.
Qed.

Lemma children_loop_logged (expire : Z) (cs : list child) :
  Forall (fun c => match c with
                   | CQuery q => forall st st' be,
                       _build expire q st = (st', Ok be) -> logged st st'
                   | CPair _ _ => True
                   end) cs ->
  forall keys args st st' r,
    children_loop expire cs keys args st = (st', Ok r) -> logged st st'.
Proof.
  induction 1 as [|c cs Hc _ IH]; intros keys args st st' r.
  - cbn. intros [= <- _]. apply logged_refl.
  - destruct c as [q|lookup v]; cbn [children_loop].
    + unfold bind at 1. destruct (_build expire q st) as [st1 [be|e]] eqn:Hq;
        [|discriminate].
      intros Hl. eapply logged_trans; [exact (Hc _ _ _ Hq)|exact (IH _ _ _ _ _ Hl)].
    + destruct (String.eqb lookup "set"); [discriminate|]. apply IH.
Qed.

Lemma build_logged (expire : Z) (qs : queryelem) :
  forall st st' be, _build expire qs st = (st', Ok be) -> logged st st'.
Proof.
  induction qs as [keyword name m children where_ gf IH]
    using queryelem_children_ind.
  intros st st' be. rewrite _build_unfold. unfold bind at 1.
  destruct (children_loop expire children [] [] st) as [st1 [[keys args]|e]] eqn:Hl;
    [|discriminate].
  intros He. eapply logged_trans.
  - exact (children_loop_logged expire children IH _ _ _ _ _ Hl).
  - exact (build_element_logged _ _ _ _ _ _ _ _ _ _ _ He).
Qed.

(** C1. When [_build] has compiled a query tree, the pipeline has only
    grown, and the temporary keys made during the compilation are, in the
    order they were made, exactly the keys of the [expire] commands queued
    during it: every temporary key got its expiry on the same pipeline, and
    no expiry was queued when no temporary key was made. This holds of every
    element of the tree, each being compiled by a call of [_build]. *)
Theorem build_expires_every_temp_key
  (expire : Z) (qs : queryelem) (st st' : state) (be : backend_query) :
  _build expire qs st = (st', Ok be) ->
  exists (cmds : list command) (ts : list rkey),
    pipe st' = pipe st ++ cmds /\
    temps st' = temps st ++ ts /\
    expired_keys cmds = ts.
Proof.
  exact (build_logged expire qs st st' be).
Qed.

Lemma build_expires_every_temp_key_witness :
  exists (cmds : list command) (ts : list rkey),
    pipe (fst (_build 60 Examples.a_union Examples.st0)) = [] ++ cmds /\
    temps (fst (_build 60 Examples.a_union Examples.st0)) = [] ++ ts /\
    expired_keys cmds = ts.
Proof.
  exact (build_expires_every_temp_key 60 Examples.a_union Examples.st0 _ _
           eq_refl).
Defined.

(** A query element with a where clause does not compile: [where_run]
    raises before the expiry is reached. *)
Lemma build_element_where_raises (expire : Z) (keyword name : string) (m : meta)
  (w : string) (load_only : list string) (gf : option string)
  (keys : list rkey) (args : list arg) (st : state) :
  exists e, snd (_build_element expire keyword name m (Some (w, load_only)) gf
                   keys args st) = Raise e.
Proof.
  unfold _build_element. run_build.
  destruct (String.eqb keyword "set");
    [destruct (String.eqb name (pkname m) && negb (truthy args))|
     destruct (String.eqb keyword "intersect");
     [|destruct (String.eqb keyword "union");
       [|destruct (String.eqb keyword "diff")]]];
    destruct (truthy load_only); cbn; eauto.
Qed.

(** C6 (as amended). A query element with keyword ['set'] on the primary
    key, with no children (hence no filter arguments), no where clause and
    no projection on a field other than the primary key, compiles to the
    permanent primary key index key and leaves the pipeline, the source of
    unique ids and the log of temporary keys untouched: no temporary key,
    no query script, no expiry. *)
Theorem build_pk_set_reuses_index_key
  (expire : Z) (name : string) (m : meta) (gf : option string) (st : state) :
  name = pkname m ->
  (forall g, gf = Some g -> g = "" \/ g = pkname m) ->
  _build expire (QueryElem "set" name m [] None gf) st
  = (st, Ok (BackendQuery (basekey (model m) [P "id"]) None)).
Proof.
  intros -> Hgf. rewrite _build_unfold. cbn [children_loop].
  unfold _build_element. run_build. cbn [String.eqb Ascii.eqb Bool.eqb].
  rewrite String.eqb_refl. cbn [truthy negb andb].
  destruct gf as [g|]; cbn [truthy_opt].
  - destruct (Hgf g eq_refl) as [-> | ->].
    + reflexivity.
    + destruct (truthy_str (pkname m)); [|reflexivity].
      rewrite String.eqb_refl. reflexivity.
  - reflexivity.
Qed.

Lemma build_pk_set_reuses_index_key_witness :
  _build 60 Examples.all_books Examples.st0
  = (Examples.st0, Ok (BackendQuery (basekey "book" [P "id"]) None)).
Proof.
  apply (build_pk_set_reuses_index_key 60 "id" Examples.book None Examples.st0).
  - reflexivity.
  - discriminate.
Defined.

(** C6 (as stated) fails: the element is a ['set'] on the primary key [id]
    with no children, but it projects on [title]; the query key is a
    temporary key, filled by [sort] and given an expiry. *)
Lemma build_pk_set_with_projection_uses_temp_key :
  Examples.all_titles = QueryElem "set" "id" Examples.book [] None (Some "title")
  /\ pkname Examples.book = "id"
  /\ _build 60 Examples.all_titles Examples.st0
     = (State
          [redis "sort" (basekey "book" [P "id"])
             [AStr "nosort"; AKey (basekey "book" [P "obj"; P "*->title"]);
              AKey (basekey "book" [P "tmp"; U 0])];
           redis "expire" (basekey "book" [P "tmp"; U 0]) [AInt 60]]
          1 [basekey "book" [P "tmp"; U 0]],
        Ok (BackendQuery (basekey "book" [P "tmp"; U 0]) (Some "llen"))).
Proof.
  repeat split.
Qed.

(** C2 (as amended). With a slice and a [get_field], [_items] raises
    [QuerySetError] whatever the field, the primary key included; no load
    script has been called by then (at most the cardinality was asked for,
    when an ordering had to be resolved). *)
Theorem items_slice_with_get_field_raises
  (unique_tuple : list string -> list string -> list string)
  (self : RedisQuery) (slic : slice) (N : Z) (st : state) (g : string) :
  rq_get_field self = Some g ->
  truthy_str g = true ->
  exists cmds : list command,
    _items unique_tuple self (Some slic) N st
    = (State (pipe st ++ cmds) (uid st) (temps st), Raise slice_error)
    /\ existsb (is_odmrun "load") cmds = false.
Proof.
  intros Hg Ht. unfold _items, _execute_query, get_redis_slice.
  rewrite Hg. cbn [truthy_opt]. rewrite Ht. cbn [is_some].
  destruct st as [p u t].
  destruct (rq_ordering self) as [o|];
    [|destruct (ordering (rq_meta self)) as [mo|];
      [|destruct (negb (match sl_start slic with
                        | Some start => start
                        | None => 0
                        end =? 0)%Z || is_some (sl_stop slic))]];
    run_build; rewrite <- ?app_assoc; cbn [app].
  - eexists. split; reflexivity.
  - exists []. rewrite app_nil_r. split; reflexivity.
  - eexists. split; reflexivity.
  - exists []. rewrite app_nil_r. split; reflexivity.
Qed.

Lemma items_slice_with_get_field_raises_witness :
  exists cmds : list command,
    _items Examples.unique_tuple Examples.books_pk
      (Some (Slice (Some 0%Z) (Some 5%Z))) 10 Examples.st0
    = (State ([] ++ cmds) 0 [], Raise slice_error)
    /\ existsb (is_odmrun "load") cmds = false.
Proof.
  exact (items_slice_with_get_field_raises Examples.unique_tuple
           Examples.books_pk (Slice (Some 0%Z) (Some 5%Z)) 10 Examples.st0 "id"
           eq_refl eq_refl).
Defined.

(** C2 (as stated) fails: the projection targets the primary key [id] of
    [book], the query is sliced [0:5], and [_items] raises all the same. *)
Lemma items_slice_with_pk_projection_raises :
  rq_get_field Examples.books_pk = Some (pkname (rq_meta Examples.books_pk))
  /\ snd (_items Examples.unique_tuple Examples.books_pk
            (Some (Slice (Some 0%Z) (Some 5%Z))) 10 Examples.st0)
     = Raise slice_error.
Proof.
  split; reflexivity.
Qed.

(** C3. For a query with an explicit ordering, sliced [start:stop], [_items]
    first asks for the cardinality [N] (the card command, then the run of
    the pipeline), and then calls the load script with the ordering
    ['explicit'], [start] moved up by [N] when negative, and for [stop] the
    length: [stop], [N] when missing and moved up by [N] when negative,
    minus the resolved [start]. *)
Theorem items_explicit_order_resolves_slice
  (unique_tuple : list string -> list string -> list string)
  (self : RedisQuery) (slic : slice) (N : Z) (st : state) (o : orderinginfo) :
  rq_ordering self = Some o ->
  truthy_opt (rq_get_field self) = false ->
  let start := match sl_start slic with Some start => start | None => 0%Z end in
  let start' := if (start <? 0)%Z then (start + N)%Z else start in
  let stop' :=
    match sl_stop slic with
    | None => N
    | Some stop => if (stop <? 0)%Z then (stop + N)%Z else stop
    end in
  exists (card_ : string) (joptions : load_options),
    _items unique_tuple self (Some slic) N st
    = (State
         (pipe st
          ++ [redis card_ (query_key (rq_built self)) [];
              execute;
              execute_script "odmrun" [query_key (rq_built self)]
                [AStr "load"; AMeta (model (rq_meta self)); AOptions joptions]])
         (uid st) (temps st),
       Ok tt)
    /\ lo_ordering joptions = "explicit"
    /\ lo_start joptions = start'
    /\ lo_stop joptions = (stop' - start')%Z.
Proof.
  intros Ho Hg. cbv zeta. unfold _items, _execute_query, get_redis_slice.
  rewrite Ho, Hg. destruct st as [p u t]. run_build.
  repeat match goal with
         | |- context [if truthy ?l then _ else _] => destruct (truthy l)
         | |- context [list_eq_dec string_dec ?a ?b] =>
             destruct (list_eq_dec string_dec a b)
         | |- context [backend_fields ?m ?f] => destruct (backend_fields m f)
         end;
    rewrite <- ?app_assoc; cbn [app];
    do 2 eexists; (split; [reflexivity|]); cbn; auto.
Qed.

Lemma items_explicit_order_resolves_slice_witness :
  exists (card_ : string) (joptions : load_options),
    _items Examples.unique_tuple Examples.books_by_title
      (Some (Slice (Some (-3)%Z) (Some (-1)%Z))) 10 Examples.st0
    = (State
         ([]
          ++ [redis card_ (basekey "book" [P "id"]) [];
              execute;
              execute_script "odmrun" [basekey "book" [P "id"]]
                [AStr "load"; AMeta "book"; AOptions joptions]])
         0 [],
       Ok tt)
    /\ lo_ordering joptions = "explicit"
    /\ lo_start joptions = 7%Z
    /\ lo_stop joptions = 2%Z.
Proof.
  exact (items_explicit_order_resolves_slice Examples.unique_tuple
           Examples.books_by_title (Slice (Some (-3)%Z) (Some (-1)%Z)) 10
           Examples.st0 _ eq_refl eq_refl).
Defined.

(** Where [_build] stops on a where clause: the name [where_run] reads
    first without it being bound. *)
Lemma where_run_raises (meta_info : arg) (keys : list rkey) (w : string)
  (load_only : list string) (st : state) :
  where_run meta_info keys w load_only st
  = (st, Raise (NameError (if truthy load_only then "args" else "keys_args"))).
Proof.
  unfold where_run. destruct (truthy load_only); reflexivity.
Qed.

Lemma children_loop_args_length (expire : Z) (cs : list child) :
  forall keys args st st' keys' args',
    children_loop expire cs keys args st = (st', Ok (keys', args')) ->
    length args' = length args + 2 * length cs.
Proof.
  induction cs as [|c cs IH]; intros keys args st st' keys' args'.
  - cbn. intros [= _ _ <-]. lia.
  - destruct c as [q|lookup v]; cbn [children_loop].
    + unfold bind at 1. destruct (_build expire q st) as [st1 [be|e]];
        [|discriminate].
      intros H. apply IH in H. rewrite H, length_app. cbn [length]. lia.
    + destruct (String.eqb lookup "set"); [discriminate|].
      intros H. apply IH in H. rewrite H, length_app. cbn [length]. lia.
Qed.

(** X1. A query element that carries a where clause never compiles:
    [_build] raises, whatever the element and the pipeline; when its
    children compile and its keyword is one of the four known ones, the
    exception is the [NameError] of [where_run], raised after the commands
    of the element's first stage were queued and before any expiry. *)
Theorem build_where_never_compiles
  (expire : Z) (keyword name : string) (m : meta) (children : list child)
  (w : string) (load_only : list string) (gf : option string) (st : state) :
  (exists e,
     snd (_build expire (QueryElem keyword name m children
                           (Some (w, load_only)) gf) st) = Raise e)
  /\ (forall st1 keys args,
        children_loop expire children [] [] st = (st1, Ok (keys, args)) ->
        In keyword ["set"; "intersect"; "union"; "diff"] ->
        snd (_build expire (QueryElem keyword name m children
                              (Some (w, load_only)) gf) st)
        = Raise (NameError (if truthy load_only then "args" else "keys_args"))
        /\ expired_keys
             (pipe (fst (_build expire (QueryElem keyword name m children
                                          (Some (w, load_only)) gf) st)))
           = expired_keys (pipe st1)).
Proof.
  rewrite _build_unfold. unfold bind at 1 2 3.
  destruct (children_loop expire children [] [] st) as [st1 [[keys args]|e]] eqn:Hl.
  - split.
    + apply build_element_where_raises.
    + intros st0 keys0 args0 Heq Hk. inversion Heq; subst st0 keys0 args0.
      destruct st1 as [p u t].
      unfold _build_element. run_build.
      destruct Hk as [<-|[<-|[<-|[<-|[]]]]]; cbn [String.eqb Ascii.eqb Bool.eqb];
        try destruct (String.eqb name (pkname m) && negb (truthy args));
        destruct (ordering m); destruct (truthy load_only); cbn [fst snd];
        rewrite ?expired_keys_app; cbn; rewrite ?app_nil_r; auto.
  - split; [exists e; reflexivity|].
    intros st0 keys0 args0 Heq. discriminate Heq.
Qed.

(** X2. An element whose keyword is none of [set], [intersect], [union],
    [diff], and whose children compile, makes [_build] raise [ValueError]:
    by then a temporary key has been drawn and the [move2set] script queued
    over the children's keys, and nothing else; no store command names the
    new key and no expiry is queued for it. *)
Theorem build_unknown_keyword_raises
  (expire : Z) (keyword name : string) (m : meta) (children : list child)
  (where_ : option (string * list string)) (gf : option string)
  (st st1 : state) (keys : list rkey) (args : list arg) :
  ~ In keyword ["set"; "intersect"; "union"; "diff"] ->
  children_loop expire children [] [] st = (st1, Ok (keys, args)) ->
  _build expire (QueryElem keyword name m children where_ gf) st
  = (State
       (pipe st1
        ++ [execute_script "move2set" keys
              [AStr (match ordering m with Some _ => "z" | None => "s" end)]])
       (S (uid st1))
       (temps st1 ++ [basekey (model m) [P TMP; U (uid st1)]]),
     Raise (ValueError (String.append "Could not perform "
                          (String.append keyword " operation")))).
Proof.
  intros Hk Hl. rewrite _build_unfold. unfold bind at 1. rewrite Hl.
  destruct st1 as [p u t]. unfold _build_element. run_build.
  destruct (String.eqb_spec keyword "set") as [->|_];
    [exfalso; apply Hk; cbn; auto|].
  destruct (String.eqb_spec keyword "intersect") as [->|_];
    [exfalso; apply Hk; cbn; auto|].
  destruct (String.eqb_spec keyword "union") as [->|_];
    [exfalso; apply Hk; cbn; auto|].
  destruct (String.eqb_spec keyword "diff") as [->|_];
    [exfalso; apply Hk; cbn; auto|].
  reflexivity.
Qed.

Lemma build_unknown_keyword_raises_witness :
  _build 60 (QueryElem "xor" "" Examples.book [] None None) Examples.st0
  = (State [execute_script "move2set" [] [AStr "s"]] 1
       [basekey "book" [P "tmp"; U 0]],
     Raise (ValueError "Could not perform xor operation")).
Proof.
  apply (build_unknown_keyword_raises 60 "xor" "" Examples.book [] None None
           Examples.st0 Examples.st0 [] []).
  - cbn. intros [H|[H|[H|[H|[]]]]]; discriminate H.
  - reflexivity.
Defined.

Lemma build_element_query_key (expire : Z) (keyword name : string) (meta : meta)
  (where_ : option (string * list string)) (gf : option string)
  (keys : list rkey) (args : list arg) (st st' : state) (be : backend_query) :
  _build_element expire keyword name meta where_ gf keys args st = (st', Ok be) ->
  (query_key be = basekey (model meta) [P "id"] /\ args = [] /\ st' = st)
  \/ (exists before : list command,
        pipe st' = before ++ [redis "expire" (query_key be) [AInt expire]]
        /\ is_tempkey (query_key be) = true
        /\ In (query_key be) (temps st')).
Proof.
  destruct st as [p u t]. unfold _build_element.
  destruct where_ as [[w lo]|].
  - intros H. destruct (build_element_where_raises expire keyword name meta w lo
                          gf keys args (State p u t)) as (e & He).
    unfold _build_element in He. rewrite H in He. discriminate.
  - run_build. intros H.
    destruct (String.eqb keyword "set");
      [destruct (String.eqb name (pkname meta) && negb (truthy args)) eqn:Hpk|
       destruct (String.eqb keyword "intersect");
       [|destruct (String.eqb keyword "union");
         [|destruct (String.eqb keyword "diff"); [|discriminate]]]];
      (destruct (if truthy_opt gf then gf else None) as [g|];
       [destruct (negb (String.eqb g (pkname meta)));
        [destruct (get_field (dfields meta) g) as [f|]; [|discriminate]|]|]);
      injection H as <- <-; cbn [query_key];
      try (left; split; [reflexivity|]; split; [|reflexivity];
           apply andb_prop in Hpk as [_ Hpk]; destruct args;
           [reflexivity|discriminate]);
      right; rewrite <- ?app_assoc; cbn [app];
      first [ exists p; split; [reflexivity|]
            | eexists (p ++ [_]); rewrite <- app_assoc; cbn [app];
              split; [reflexivity|]
            | eexists (p ++ [_; _]); rewrite <- app_assoc; cbn [app];
              split; [reflexivity|]
            | eexists (p ++ [_; _; _]); rewrite <- app_assoc; cbn [app];
              split; [reflexivity|] ];
      (split; [reflexivity|apply in_or_app; right; left; reflexivity]).
Qed.

(** X3. The query key [_build] hands back is either the permanent primary
    key index key, and then the element has no children and nothing at all
    was queued or drawn for it, or a temporary key made during the
    compilation whose [expire] is the last command on the pipeline. *)
Theorem build_query_key_index_or_expiring
  (expire : Z) (keyword name : string) (m : meta) (children : list child)
  (where_ : option (string * list string)) (gf : option string)
  (st st' : state) (be : backend_query) :
  _build expire (QueryElem keyword name m children where_ gf) st = (st', Ok be) ->
  (query_key be = basekey (model m) [P "id"] /\ children = [] /\ st' = st)
  \/ (exists before : list command,
        pipe st' = before ++ [redis "expire" (query_key be) [AInt expire]]
        /\ is_tempkey (query_key be) = true
        /\ In (query_key be) (temps st')).
Proof.
  rewrite _build_unfold. unfold bind at 1.
  destruct (children_loop expire children [] [] st) as [st1 [[keys args]|e]] eqn:Hl;
    [|discriminate].
  intros H. apply build_element_query_key in H as [(Hk & -> & ->)|Ht];
    [left|right; exact Ht].
  apply children_loop_args_length in Hl as Hlen. cbn [length] in Hlen.
  destruct children; [|cbn [length] in Hlen; lia].
  cbn in Hl. injection Hl as <-. auto.
Qed.

Lemma build_query_key_index_or_expiring_witness :
  (query_key (BackendQuery (basekey "book" [P "tmp"; U 0]) None)
   = basekey (model Examples.book) [P "id"]
   /\ [CPair "value" (VStr "emma")] = []
   /\ fst (_build 60 Examples.by_title Examples.st0) = Examples.st0)
  \/ (exists before : list command,
        pipe (fst (_build 60 Examples.by_title Examples.st0))
        = before ++ [redis "expire" (basekey "book" [P "tmp"; U 0]) [AInt 60]]
        /\ is_tempkey (basekey "book" [P "tmp"; U 0]) = true
        /\ In (basekey "book" [P "tmp"; U 0])
             (temps (fst (_build 60 Examples.by_title Examples.st0)))).
Proof.
  exact (build_query_key_index_or_expiring 60 "set" "title" Examples.book
           [CPair "value" (VStr "emma")] None None Examples.st0 _ _ eq_refl).
Defined.

Ltac items_fields :=
  repeat match goal with
         | |- context [if truthy ?l then _ else _] => destruct (truthy l)
         | |- context [list_eq_dec string_dec ?a ?b] =>
             destruct (list_eq_dec string_dec a b)
         | |- context [String.eqb ?a ?b] => destruct (String.eqb a b)
         | |- context [backend_fields ?m ?f] => destruct (backend_fields m f)
         end.

(** X4. Without an explicit ordering, when the model has an ordering of its
    own or the query is not sliced, [_items] makes no round trip for the
    cardinality: the only command is the load script call, its ordering is
    [DESC] or [ASC] after the model's (empty for a model without one), no
    [order] is sent, and the slice goes through as given, negative indices
    included, a missing [stop] becoming [-1]. *)
Theorem items_without_order_passes_slice_through
  (unique_tuple : list string -> list string -> list string)
  (self : RedisQuery) (slic : option slice) (N : Z) (st : state) :
  rq_ordering self = None ->
  truthy_opt (rq_get_field self) && is_some slic = false ->
  ordering (rq_meta self) <> None \/ get_redis_slice slic = (0%Z, None) ->
  exists joptions : load_options,
    _items unique_tuple self slic N st
    = (State
         (pipe st
          ++ [execute_script "odmrun" [query_key (rq_built self)]
                [AStr "load"; AMeta (model (rq_meta self)); AOptions joptions]])
         (uid st) (temps st),
       Ok tt)
    /\ lo_order joptions = None
    /\ lo_ordering joptions
       = match ordering (rq_meta self) with
         | Some o => if oi_desc o then "DESC" else "ASC"
         | None => ""
         end
    /\ lo_start joptions = fst (get_redis_slice slic)
    /\ lo_stop joptions
       = match snd (get_redis_slice slic) with
         | Some stop => stop
         | None => (-1)%Z
         end.
Proof.
  intros Ho Hg Hs. unfold _items. rewrite Ho.
  destruct (get_redis_slice slic) as [start stop] eqn:Hslice.
  destruct st as [p u t].
  assert (Hord :
    (match ordering (rq_meta self) with
     | Some o => (if oi_desc o then "DESC" else "ASC", @None order_dict)
     | None =>
         if negb (start =? 0)%Z || is_some stop
         then ("", Some (order (get_sorting_pk (rq_meta self))))
         else ("", None)
     end)
    = (match ordering (rq_meta self) with
       | Some o => if oi_desc o then "DESC" else "ASC"
       | None => ""
       end, None)).
  { destruct (ordering (rq_meta self)) as [o|]; [reflexivity|].
    destruct Hs as [Hs|Hs]; [congruence|]. injection Hs as -> ->. reflexivity. }
  rewrite Hord. run_build. cbn [fst snd].
  destruct (truthy_opt (rq_get_field self)) eqn:Hget.
  - destruct slic as [sl|]; [discriminate|]. cbn [is_some].
    destruct (rq_get_field self) as [g|]; [|discriminate].
    items_fields; eexists; (split; [reflexivity|]); cbn; auto.
  - items_fields; eexists; (split; [reflexivity|]); cbn; auto.
Qed.

Lemma items_without_order_passes_slice_through_witness :
  exists joptions : load_options,
    _items Examples.unique_tuple Examples.books_pk None 10 Examples.st0
    = (State
         ([] ++ [execute_script "odmrun" [basekey "book" [P "id"]]
                   [AStr "load"; AMeta "book"; AOptions joptions]])
         0 [],
       Ok tt)
    /\ lo_order joptions = None
    /\ lo_ordering joptions = ""
    /\ lo_start joptions = 0%Z
    /\ lo_stop joptions = (-1)%Z.
Proof.
  apply (items_without_order_passes_slice_through Examples.unique_tuple
           Examples.books_pk None 10 Examples.st0).
  - reflexivity.
  - reflexivity.
  - right. reflexivity.
Defined.

(** X5. A sliced query with no explicit ordering on a model with no ordering
    of its own is ordered by primary key: [_items] asks for the cardinality
    [N] first and calls the load script with the ordering ['explicit'], the
    [order] built from [meta.get_sorting(pkname)], and the slice resolved
    against [N] into a start and a length. *)
Theorem items_sliced_unordered_orders_by_pk
  (unique_tuple : list string -> list string -> list string)
  (self : RedisQuery) (slic : slice) (N : Z) (st : state) :
  rq_ordering self = None ->
  ordering (rq_meta self) = None ->
  truthy_opt (rq_get_field self) = false ->
  get_redis_slice (Some slic) <> (0%Z, None) ->
  let start := fst (get_redis_slice (Some slic)) in
  let start' := if (start <? 0)%Z then (start + N)%Z else start in
  let stop' :=
    match sl_stop slic with
    | None => N
    | Some stop => if (stop <? 0)%Z then (stop + N)%Z else stop
    end in
  exists (card_ : string) (joptions : load_options),
    _items unique_tuple self (Some slic) N st
    = (State
         (pipe st
          ++ [redis card_ (query_key (rq_built self)) [];
              execute;
              execute_script "odmrun" [query_key (rq_built self)]
                [AStr "load"; AMeta (model (rq_meta self)); AOptions joptions]])
         (uid st) (temps st),
       Ok tt)
    /\ lo_ordering joptions = "explicit"
    /\ lo_order joptions = Some (order (get_sorting_pk (rq_meta self)))
    /\ lo_start joptions = start'
    /\ lo_stop joptions = (stop' - start')%Z.
Proof.
  intros Ho Hm Hg Hs. cbv zeta. unfold _items, _execute_query.
  rewrite Ho, Hm, Hg.
  destruct (get_redis_slice (Some slic)) as [start stop] eqn:Hslice.
  assert (Hstop : stop = sl_stop slic) by (cbn in Hslice; congruence).
  assert (Hcond : negb (start =? 0)%Z || is_some stop = true).
  { destruct (Z.eqb_spec start 0) as [->|]; [|reflexivity].
    destruct stop; [reflexivity|]. congruence. }
  rewrite Hcond. subst stop. destruct st as [p u t]. run_build.
  cbn [fst]. items_fields; rewrite <- ?app_assoc; cbn [app];
    do 2 eexists; (split; [reflexivity|]); cbn; auto.
Qed.

Lemma items_sliced_unordered_orders_by_pk_witness :
  exists (card_ : string) (joptions : load_options),
    _items Examples.unique_tuple Examples.books_unordered
      (Some (Slice None (Some 5%Z))) 10 Examples.st0
    = (State
         ([]
          ++ [redis card_ (basekey "book" [P "id"]) [];
              execute;
              execute_script "odmrun" [basekey "book" [P "id"]]
                [AStr "load"; AMeta "book"; AOptions joptions]])
         0 [],
       Ok tt)
    /\ lo_ordering joptions = "explicit"
    /\ lo_order joptions = Some (OrderDict "" "" false [])
    /\ lo_start joptions = 0%Z
    /\ lo_stop joptions = 5%Z.
Proof.
  exact (items_sliced_unordered_orders_by_pk Examples.unique_tuple
           Examples.books_unordered (Slice None (Some 5%Z)) 10 Examples.st0
           eq_refl eq_refl eq_refl ltac:(discriminate)).
Defined.

Lemma build_element_card (expire : Z) (keyword name : string) (meta : meta)
  (where_ : option (string * list string)) (gf : option string)
  (keys : list rkey) (args : list arg) (st st' : state) (be : backend_query) :
  _build_element expire keyword name meta where_ gf keys args st = (st', Ok be) ->
  card be
  = match gf with
    | Some g =>
        if truthy_str g && negb (String.eqb g (pkname meta))
        then Some "llen" else None
    | None => None
    end.
Proof.
  destruct st as [p u t]. unfold _build_element.
  destruct where_ as [[w lo]|].
  - intros H. destruct (build_element_where_raises expire keyword name meta w lo
                          gf keys args (State p u t)) as (e & He).
    unfold _build_element in He. rewrite H in He. discriminate.
  - run_build. intros H.
    destruct gf as [g|]; cbn [truthy_opt] in *;
      [destruct (truthy_str g);
       [destruct (negb (String.eqb g (pkname meta)));
        [destruct (get_field (dfields meta) g) as [f|]|]|]|];
      (destruct (String.eqb keyword "set");
       [destruct (String.eqb name (pkname meta) && negb (truthy args))|
        destruct (String.eqb keyword "intersect");
        [|destruct (String.eqb keyword "union");
          [|destruct (String.eqb keyword "diff")]]]);
      try discriminate; injection H as _ <-; reflexivity.
Qed.

(** X6. After [_build] has compiled an element, [_execute_query] asks for
    the cardinality of the key [_build] returned with the command that fits
    what the key holds: [llen] when the element projected on a field other
    than the primary key (the sort stored a list), otherwise [zcard] for a
    model with an ordering and [scard] for one without; it then runs the
    pipeline. *)
Theorem execute_query_after_build
  (expire : Z) (keyword name : string) (m : meta) (children : list child)
  (where_ : option (string * list string)) (gf : option string)
  (st st' : state) (be : backend_query) (self : RedisQuery) (N : Z) :
  _build expire (QueryElem keyword name m children where_ gf) st = (st', Ok be) ->
  rq_built self = be ->
  rq_meta self = m ->
  _execute_query self N st'
  = (State
       (pipe st'
        ++ [redis
              (match gf with
               | Some g =>
                   if truthy_str g && negb (String.eqb g (pkname m))
                   then "llen"
                   else match ordering m with Some _ => "zcard" | None => "scard" end
               | None =>
                   match ordering m with Some _ => "zcard" | None => "scard" end
               end)
              (query_key be) [];
            execute])
       (uid st') (temps st'),
     Ok N).
Proof.
  rewrite _build_unfold. unfold bind at 1.
  destruct (children_loop expire children [] [] st) as [st1 [[keys args]|e]];
    [|discriminate].
  intros H Hb Hm. apply build_element_card in H.
  unfold _execute_query. rewrite Hb, Hm, H. destruct st' as [p u t].
  run_build. rewrite <- app_assoc. cbn [app].
  destruct gf as [g|]; [|reflexivity].
  destruct (truthy_str g && negb (String.eqb g (pkname m))); reflexivity.
Qed.

Lemma execute_query_after_build_witness :
  _execute_query Examples.books_titles 3
    (fst (_build 60 Examples.all_titles Examples.st0))
  = (State
       (pipe (fst (_build 60 Examples.all_titles Examples.st0))
        ++ [redis "llen" (basekey "book" [P "tmp"; U 0]) []; execute])
       1 [basekey "book" [P "tmp"; U 0]],
     Ok 3%Z).
Proof.
  exact (execute_query_after_build 60 "set" "id" Examples.book [] None
           (Some "title") Examples.st0 _ _ Examples.books_titles 3
           eq_refl eq_refl eq_refl).
Defined.

End QueryProps.

(** ** Cascading delete *)

Module DeleteProps.

Import Delete.

Lemma meta_related_ind (Pm : meta -> Prop)
  (H : forall name related,
      Forall (fun r => Pm (rm_model r)) related -> Pm (Meta name related)) :
  forall m, Pm m.
Proof.
  fix IH 1. intros [name related]. apply H.
  induction related as [|[m a r] rs IHrs]; constructor; [apply IH | exact IHrs].
Qed.

Lemma accumulate_delete_query_unfold (expire : Z) (name : string)
  (related : list rmanager) (query_key : rkey) :
  accumulate_delete_query expire (Meta name related) query_key
  = (aggregate_related (Meta name related) [query_key] related ;;
     dependents_loop expire (Meta name related) query_key related ;;
     odmrun "delete" name [query_key] []).
Proof.
  cbn [accumulate_delete_query].
  change (fix loop (rms : list rmanager) {struct rms} : M unit := _)
    with (dependents_loop expire (Meta name related) query_key).
  reflexivity.
Qed.

Lemma aggregate_related_spec (meta : meta) (keys : list rkey)
  (rms : list rmanager) (st : state) :
  aggregate_related meta keys rms st
  = (State (pipe st ++ map (aggregate_command meta keys)
                         (filter (same_model meta) rms))
       (uid st) (temps st), Ok tt).
Proof.
  revert st. induction rms as [|r rms IH]; intros [p u t]; cbn [aggregate_related].
  - cbn. now rewrite app_nil_r.
  - unfold bind at 1. cbn [filter].
    destruct (same_model meta r); cbv [odmrun emit ret pipe uid temps];
      rewrite IH; cbn [pipe uid temps map]; [|reflexivity].
    now rewrite <- app_assoc.
Qed.

Lemma dependents_loop_spec (expire : Z) (meta : meta) (query_key : rkey)
  (rms : list rmanager) :
  Forall (fun r => delete_appends expire (rm_model r)) rms ->
  forall st : state,
  exists (segs : list (list command)) (st' : state),
    dependents_loop expire meta query_key rms st = (st', Ok tt) /\
    pipe st' = pipe st ++ concat segs /\
    Forall2 (fun r seg => ends_with_delete (name (rm_model r)) seg)
      (filter (fun r => negb (same_model meta r) && rm_required r) rms) segs.
Proof.
  induction 1 as [|[m a req] rms Hr _ IH]; intros st.
  - exists [], st. cbn. rewrite app_nil_r. auto.
  - cbn [dependents_loop filter rm_required].
    fold (dependents_loop expire meta query_key).
    destruct (negb (same_model meta (RManager m a req)) && req).
    + destruct st as [p u t].
      unfold bind at 1. unfold bind at 1.
      cbv [related_backend_query bind tempkey odmrun emit ret].
      cbn [rm_model rm_attname pipe uid temps] in *.
      set (k := basekey (name m) [P TMP; U u]).
      match goal with
      | |- context [accumulate_delete_query expire m k ?s] =>
          destruct (Hr k s) as (before & st1 & -> & Hp1)
      end.
      destruct (IH st1) as (segs & st' & -> & Hp & Hf).
      eexists (_ :: segs), st'. split; [reflexivity|]. split.
      * rewrite Hp, Hp1. cbn [pipe concat].
        instantiate (1 := [_; _] ++ before ++ [_]).
        rewrite <- !app_assoc. cbn [app]. reflexivity.
      * constructor; [|exact Hf].
        exists ([execute_script "odmrun" [k; query_key]
                   [AStr "query"; AMeta (name m); AStr a; AStr "set";
                    AKey query_key];
                 redis "expire" k [AInt expire]] ++ before), k.
        split; [reflexivity|]. rewrite <- app_assoc. reflexivity.
    + unfold bind at 1. cbv [ret].
      destruct (IH st) as (segs & st' & -> & Hp & Hf).
      exists segs, st'. auto.
Qed.

Lemma accumulate_delete_query_spec (expire : Z) (m : meta)
  (key : rkey) (st : state) :
  exists (segs : list (list command)) (st' : state),
    accumulate_delete_query expire m key st = (st', Ok tt) /\
    pipe st' = pipe st
               ++ map (aggregate_command m [key]) (filter (same_model m) (related m))
               ++ concat segs
               ++ [delete_command (name m) key] /\
    Forall2 (fun r seg => ends_with_delete (name (rm_model r)) seg)
      (required_dependents m) segs.
Proof.
  revert key st.
  induction m as [name related IH] using meta_related_ind. intros key st.
  assert (Hall : Forall (fun r => delete_appends expire (rm_model r)) related).
  { eapply Forall_impl; [|exact IH]. intros r Hr k s.
    destruct (Hr k s) as (segs & st' & He & Hp & _).
    exists (map (aggregate_command (rm_model r) [k])
              (filter (same_model (rm_model r)) (Delete.related (rm_model r)))
            ++ concat segs), st'.
    split; [exact He|]. rewrite Hp, <- app_assoc. reflexivity. }
  rewrite accumulate_delete_query_unfold.
  unfold bind at 1. rewrite aggregate_related_spec.
  unfold bind at 1.
  destruct (dependents_loop_spec expire (Meta name related) key related Hall
              (State (pipe st ++ map (aggregate_command (Meta name related) [key])
                                   (filter (same_model (Meta name related)) related))
                 (uid st) (temps st)))
    as (segs & st' & -> & Hp & Hf).
  exists segs. eexists. split; [reflexivity|]. split; [|exact Hf].
  cbn [pipe] in *. rewrite Hp. rewrite <- !app_assoc. reflexivity.
Qed.

(** Deleting the authors: the aggregate for [mentor], the compiled query and
    the delete for the books, then the delete for the authors; nothing for
    the prizes. *)
Example accumulate_delete_author :
  fst (accumulate_delete 60
         (Some (BackendQuery Examples.author (basekey "author" [P "id"])))
         Examples.st0)
  = State
      [execute_script "odmrun" [basekey "author" [P "id"]]
         [AStr "aggregate"; AMeta "author"; AStr "mentor_id"];
       execute_script "odmrun"
         [basekey "book" [P "tmp"; U 0]; basekey "author" [P "id"]]
         [AStr "query"; AMeta "book"; AStr "author_id"; AStr "set";
          AKey (basekey "author" [P "id"])];
       redis "expire" (basekey "book" [P "tmp"; U 0]) [AInt 60];
       execute_script "odmrun" [basekey "book" [P "tmp"; U 0]]
         [AStr "delete"; AMeta "book"];
       execute_script "odmrun" [basekey "author" [P "id"]]
         [AStr "delete"; AMeta "author"]]
      1 [basekey "book" [P "tmp"; U 0]].
Proof.
  reflexivity.
Qed.

End DeleteProps.

Module CascadeProps.

Import Cascade.

Lemma aggregate_related_calls (model : string) (key : rkey)
  (rms : list rmanager) (st : state) :
  aggregate_related model [key] rms st
  = (State (pipe st ++ map (aggregate_call model key)
                         (filter (same_model model) rms))
       (uid st) (temps st), Ok tt).
Proof.
  revert st. induction rms as [|r rms IH]; intros [p u t];
    cbn [aggregate_related].
  - cbn. now rewrite app_nil_r.
  - unfold bind at 1. cbn [filter].
    destruct (same_model model r); cbv [odmrun emit ret pipe uid temps];
      rewrite IH; cbn [pipe uid temps map]; [|reflexivity].
    unfold aggregate_call at 2. now rewrite <- app_assoc.
Qed.






(** Deleting the authors of the library: the aggregate for [mentor]; the
    books of the authors, the reviews of these books, the delete of the
    reviews and the delete of the books; then the delete of the authors.
    Nothing for the prizes. *)
Example accumulate_delete_library :
  option_map (fun r => pipe (fst r))
    (accumulate_delete 60 Examples.library 3
       (Some (BackendQuery "author" (basekey "author" [P "id"])))
       Examples.st0)
  = Some
      [execute_script "odmrun" [basekey "author" [P "id"]]
         [AStr "aggregate"; AMeta "author"; AStr "mentor_id"];
       execute_script "odmrun"
         [basekey "book" [P "tmp"; U 0]; basekey "author" [P "id"]]
         [AStr "query"; AMeta "book"; AStr "author_id"; AStr "set";
          AKey (basekey "author" [P "id"])];
       redis "expire" (basekey "book" [P "tmp"; U 0]) [AInt 60];
       execute_script "odmrun"
         [basekey "review" [P "tmp"; U 1]; basekey "book" [P "tmp"; U 0]]
         [AStr "query"; AMeta "review"; AStr "book_id"; AStr "set";
          AKey (basekey "book" [P "tmp"; U 0])];
       redis "expire" (basekey "review" [P "tmp"; U 1]) [AInt 60];
       execute_script "odmrun" [basekey "review" [P "tmp"; U 1]]
         [AStr "delete"; AMeta "review"];
       execute_script "odmrun" [basekey "book" [P "tmp"; U 0]]
         [AStr "delete"; AMeta "book"];
       execute_script "odmrun" [basekey "author" [P "id"]]
         [AStr "delete"; AMeta "author"]].
Proof.
  reflexivity.
Qed.

Lemma delete_dependents_outcome (expire : Z)
  (rec : string -> rkey -> W unit) (key : rkey) (rms : list rmanager) :
  (forall m k st, rec m k st = None \/ exists st', rec m k st = Some (st', Ok tt)) ->
  forall st,
    delete_dependents expire rec key rms st = None
    \/ exists st', delete_dependents expire rec key rms st = Some (st', Ok tt).
Proof.
  intros Hrec. induction rms as [|r rms IH]; intros st.
  - right. exists st. reflexivity.
  - cbn [delete_dependents]. destruct (rm_required r).
    + destruct st as [p u t].
      cbv [bindW lift related_backend_query bind tempkey odmrun emit ret].
      cbn [pipe uid temps].
      match goal with
      | |- context [rec (rm_model r) ?k ?s] =>
          destruct (Hrec (rm_model r) k s) as [->|(st1 & ->)]
      end; [now left|apply IH].
    + cbv [bindW lift ret]. apply IH.
Qed.

Lemma accumulate_delete_query_outcome (expire : Z) (models : schema)
  (depth : nat) :
  forall model key st,
    accumulate_delete_query expire models depth model key st = None
    \/ exists st',
         accumulate_delete_query expire models depth model key st
         = Some (st', Ok tt).
Proof.
  induction depth as [|depth IH]; intros model key st; [now left|].
  cbn [accumulate_delete_query]. unfold bindW, lift.
  rewrite aggregate_related_calls.
  match goal with
  | |- context [delete_dependents _ _ _ ?rms ?s] =>
      destruct (delete_dependents_outcome expire
                  (accumulate_delete_query expire models depth) key rms IH s)
        as [->|(st' & ->)]
  end; [now left|].
  right. cbv [odmrun emit]. eexists. reflexivity.
Qed.

Lemma delete_dependents_trapped (expire : Z)
  (rec : string -> rkey -> W unit) (key : rkey) (r : rmanager)
  (rms : list rmanager) :
  (forall m k st, rec m k st = None \/ exists st', rec m k st = Some (st', Ok tt)) ->
  In r rms -> rm_required r = true ->
  (forall k st, rec (rm_model r) k st = None) ->
  forall st, delete_dependents expire rec key rms st = None.
Proof.
  intros Hrec Hin Hreq Hnone.
  induction rms as [|r0 rms IH]; intros st; [destruct Hin|].
  cbn [delete_dependents].
  destruct Hin as [->|Hin].
  - rewrite Hreq. destruct st as [p u t].
    cbv [bindW lift related_backend_query bind tempkey odmrun emit ret].
    cbn [pipe uid temps]. now rewrite Hnone.
  - destruct (rm_required r0).
    + destruct st as [p u t].
      cbv [bindW lift related_backend_query bind tempkey odmrun emit ret].
      cbn [pipe uid temps].
      match goal with
      | |- context [rec (rm_model r0) ?k ?s] =>
          destruct (Hrec (rm_model r0) k s) as [->|(st1 & ->)]
      end; [reflexivity|now apply IH].
    + cbv [bindW lift ret]. now apply IH.
Qed.

(** X26. Where required keys never run out, as on a cycle of required keys
    between models, the recursion of [accumulate_delete] has no end: a
    delete query over any such model does not return, whatever depth is
    allowed, so the model's own delete script call is never queued. *)
Theorem accumulate_delete_trapped_never_returns
  (expire : Z) (models : schema) (trapped : string -> Prop)
  (model : string) (depth : nat) (key : rkey) (st : state) :
  closed_under_required models trapped ->
  trapped model ->
  accumulate_delete expire models depth (Some (BackendQuery model key)) st
  = None.
Proof.
  intros Hclosed. cbn [accumulate_delete bq_model query_key].
  revert model key st.
  induction depth as [|depth IH]; intros model key st Ht; [reflexivity|].
  cbn [accumulate_delete_query]. unfold bindW at 1, lift at 1.
  rewrite aggregate_related_calls. unfold bindW at 1.
  destruct (Hclosed model Ht) as (r & Hin & Hreq & Hne & Htr).
  rewrite (delete_dependents_trapped expire
             (accumulate_delete_query expire models depth) key r
             (rel_managers models model)); [reflexivity| | |exact Hreq|].
  - apply accumulate_delete_query_outcome.
  - apply filter_In. split; [exact Hin|].
    unfold same_model. now apply negb_true_iff, String.eqb_neq.
  - intros k s. now apply IH.
Qed.

Lemma accumulate_delete_trapped_never_returns_witness :
  accumulate_delete 60 Examples.couple 1000
    (Some (BackendQuery "account" (basekey "account" [P "id"]))) Examples.st0
  = None.
Proof.
  apply (accumulate_delete_trapped_never_returns 60 Examples.couple
           (fun model => model = "account" \/ model = "owner")).
  - intros model [->| ->].
    + exists (RManager "owner" "account_id" true). cbn.
      repeat split; [now left|discriminate|now right].
    + exists (RManager "account" "owner_id" true). cbn.
      repeat split; [now left|discriminate|now left].
  - now left.
Defined.

Lemma name_unfold (models : schema) (depth : nat) (model : string) :
  Delete.name (unfold models depth model) = model.
Proof.
  destruct depth; reflexivity.
Qed.

Lemma aggregate_commands_unfold (models : schema) (depth : nat)
  (meta : Delete.meta) (key : rkey) (rms : list rmanager) :
  map (aggregate_command meta [key])
    (filter (Delete.same_model meta)
       (map (fun r =>
               Delete.RManager
                 (if negb (same_model (Delete.name meta) r) && rm_required r
                  then unfold models depth (rm_model r)
                  else Delete.Meta (rm_model r) [])
                 (rm_attname r) (rm_required r)) rms))
  = map (aggregate_call (Delete.name meta) key)
      (filter (same_model (Delete.name meta)) rms).
Proof.
  induction rms as [|r rms IH]; [reflexivity|].
  cbn [map filter]. unfold Delete.same_model at 1. cbn [Delete.rm_model].
  replace (Delete.name (if negb (same_model (Delete.name meta) r) && rm_required r
                        then unfold models depth (rm_model r)
                        else Delete.Meta (rm_model r) []))
    with (rm_model r)
    by (destruct (negb _ && _); [now rewrite name_unfold|reflexivity]).
  fold (same_model (Delete.name meta) r).
  destruct (same_model (Delete.name meta) r); [|exact IH].
  cbn [map]. now rewrite IH.
Qed.

Lemma dependents_loop_unfolds (expire : Z) (models : schema) (depth : nat)
  (meta : Delete.meta) (key : rkey) :
  (forall model k st res,
     accumulate_delete_query expire models depth model k st = Some res ->
     Delete.accumulate_delete_query expire (unfold models depth model) k st
     = res) ->
  forall rms st res,
    delete_dependents expire (accumulate_delete_query expire models depth) key
      (filter (fun r => negb (same_model (Delete.name meta) r)) rms) st
    = Some res ->
    Delete.dependents_loop expire meta key
      (map (fun r =>
              Delete.RManager
                (if negb (same_model (Delete.name meta) r) && rm_required r
                 then unfold models depth (rm_model r)
                 else Delete.Meta (rm_model r) [])
                (rm_attname r) (rm_required r)) rms) st
    = res.
Proof.
  intros Hrec. induction rms as [|r rms IH]; intros st res.
  - cbn. now intros [= <-].
  - cbn [map filter Delete.dependents_loop].
    fold (Delete.dependents_loop expire meta key).
    unfold Delete.same_model at 1. cbn [Delete.rm_model].
    replace (Delete.name (if negb (same_model (Delete.name meta) r) && rm_required r
                          then unfold models depth (rm_model r)
                          else Delete.Meta (rm_model r) []))
      with (rm_model r)
      by (destruct (negb _ && _); [now rewrite name_unfold|reflexivity]).
    fold (same_model (Delete.name meta) r).
    destruct (same_model (Delete.name meta) r); cbn [negb andb].
    + unfold bind at 1. cbv [ret]. apply IH.
    + cbn [delete_dependents]. destruct (rm_required r).
      * destruct st as [p u t].
        cbv [bindW lift related_backend_query Delete.related_backend_query
             bind tempkey odmrun emit ret].
        cbn [pipe uid temps Delete.rm_model Delete.rm_attname].
        rewrite name_unfold.
        match goal with
        | |- context [accumulate_delete_query expire models depth
                        (rm_model r) ?k ?s] =>
            destruct (accumulate_delete_query expire models depth
                        (rm_model r) k s) as [[st1 [[]|e]]|] eqn:Hr;
              [apply Hrec in Hr; rewrite Hr
              |apply Hrec in Hr; rewrite Hr; now intros [= <-]
              |discriminate]
        end.
        apply IH.
      * unfold bind at 1. cbv [bindW lift ret]. apply IH.
Qed.

(** The walk over the models and the walk over its unfolding agree: when
    the recursion ends within [depth], [Delete.accumulate_delete_query] on
    the tree unfolded to [depth] ends in the same state with the same
    result. *)
Lemma accumulate_delete_query_unfolds (expire : Z) (models : schema) :
  forall depth model key st res,
    accumulate_delete_query expire models depth model key st = Some res ->
    Delete.accumulate_delete_query expire (unfold models depth model) key st
    = res.
Proof.
  induction depth as [|depth IH]; intros model key st res; [discriminate|].
  cbn [accumulate_delete_query unfold]. unfold bindW at 1, lift at 1.
  rewrite aggregate_related_calls. unfold bindW at 1.
  rewrite DeleteProps.accumulate_delete_query_unfold.
  unfold bind at 1. rewrite DeleteProps.aggregate_related_spec.
  unfold bind at 1.
  pose proof (aggregate_commands_unfold models depth
                (Delete.Meta model
                   (map (fun r =>
                           Delete.RManager
                             (if negb (same_model model r) && rm_required r
                              then unfold models depth (rm_model r)
                              else Delete.Meta (rm_model r) [])
                             (rm_attname r) (rm_required r)) (models model)))
                key (models model)) as Hagg.
  cbn [Delete.name] in Hagg. rewrite Hagg. clear Hagg.
  pose proof (dependents_loop_unfolds expire models depth
                (Delete.Meta model
                   (map (fun r =>
                           Delete.RManager
                             (if negb (same_model model r) && rm_required r
                              then unfold models depth (rm_model r)
                              else Delete.Meta (rm_model r) [])
                             (rm_attname r) (rm_required r)) (models model)))
                key IH (models model)) as Hloop.
  cbn [Delete.name] in Hloop. fold (rel_managers models model) in Hloop.
  match goal with
  | |- context [delete_dependents _ _ _ _ ?s] =>
      destruct (delete_dependents expire
                  (accumulate_delete_query expire models depth) key
                  (rel_managers models model) s) as [[st1 [[]|e]]|] eqn:Hd;
        [apply Hloop in Hd; rewrite Hd
        |apply Hloop in Hd; rewrite Hd; now intros [= <-]
        |discriminate]
  end.
  cbv [lift]. now intros [= <-].
Qed.

End CascadeProps.

(** ** Session commit *)

Module CommitProps.

Import Commit.

Lemma encode_records_cons (action id score : arg) (data : list arg)
  (records : list commit_record) :
  encode_records ((action, id, score, data) :: records)
  = action :: id :: score :: AInt (Z.of_nat (length data))
      :: data ++ encode_records records.
Proof.
  reflexivity.
Qed.

Lemma read_records_encode (records : list commit_record) :
  read_records (length records) (encode_records records) = Some records.
Proof.
  induction records as [|[[[action id] score] data] records IH]; [reflexivity|].
  rewrite encode_records_cons. cbn [length read_records].
  rewrite Nat2Z.id.
  assert (Hle : (length data <=? length (data ++ encode_records records))%nat = true).
  { apply Nat.leb_le. rewrite length_app. lia. }
  rewrite Hle.
  rewrite skipn_app, skipn_all, Nat.sub_diag, skipn_O, app_nil_l.
  rewrite IH.
  rewrite firstn_app, firstn_all, Nat.sub_diag, firstn_O, app_nil_r.
  reflexivity.
Qed.

Lemma instance_score_expected (meta : meta) (instance : instance) (score : arg) :
  instance_score meta instance = Ok score -> expected_score meta instance score.
Proof.
  unfold instance_score, expected_score, MIN_FLOAT.
  destruct (m_ordering meta) as [[incrby|name scorefun]|].
  - now intros [= <-].
  - destruct (getattr (attrs instance) name); cbn [is_None negb];
      solve [now intros [= <-] | auto].
  - now intros [= <-].
Qed.

Lemma serialize_dirty_spec (meta : meta) (dirty : list instance) :
  forall (lua_data : list arg) (processed : list string)
         (lua_data' : list arg) (processed' : list string),
  serialize_dirty meta dirty lua_data processed = Ok (lua_data', processed') ->
  exists records : list commit_record,
    lua_data' = lua_data ++ encode_records records /\
    Forall2 (record_of meta) dirty records /\
    processed' = processed ++ map (fun i => iid (state_ i)) dirty.
Proof.
  induction dirty as [|instance dirty IH]; intros lua_data processed lua' proc'.
  - cbn. intros [= <- <-]. exists []. cbn. rewrite !app_nil_r. auto.
  - cbn [serialize_dirty].
    destruct (is_valid instance); cbn [negb]; [|discriminate].
    destruct (instance_score meta instance) as [score|e] eqn:Hs; [|discriminate].
    intros H. apply IH in H as (records & -> & Hf & ->).
    eexists ((_, _, score, flat_mapping (cleaned_data instance)) :: records).
    split; [|split].
    + rewrite encode_records_cons, <- !app_assoc. reflexivity.
    + constructor; [|exact Hf].
      cbn. auto using instance_score_expected.
    + cbn [map]. rewrite <- app_assoc. reflexivity.
Qed.

Lemma accumulate_delete_returns (expire : Z)
  (delquery : option Delete.backend_query) (st : state) :
  exists st', Delete.accumulate_delete expire delquery st = (st', Ok tt).
Proof.
  destruct delquery as [bq|]; cbn [Delete.accumulate_delete].
  - destruct (DeleteProps.accumulate_delete_query_spec expire
                (Delete.bq_meta bq) (Delete.query_key bq) st)
      as (segs & st' & H & _).
    eauto.
  - exists st. reflexivity.
Qed.

(** C9. When [execute_session] has serialized the dirty instances of a
    model, the last command on the pipeline is the commit script call, and
    its argument buffer reads back as one record per dirty instance, in
    order, whose score is [MIN_FLOAT] ([-1e99]) when the model has no
    ordering or the ordering field of the instance holds [None], the
    counter of the ordering when it is automatic, and the ordering field's
    [scorefun] of the instance's value otherwise. *)
Theorem execute_session_commits_scores
  (expire : Z) (sm : session_model) (st st' : state) (iids : list string) :
  sm_dirty sm <> [] ->
  execute_session_model expire sm st = (st', Ok iids) ->
  exists (before : list command) (commit : command)
         (records : list commit_record),
    pipe st' = before ++ [commit] /\
    is_odmrun "commit" commit = true /\
    read_commit commit = Some records /\
    Forall2 (record_of (sm_meta sm)) (sm_dirty sm) records /\
    iids = map (fun i => iid (state_ i)) (sm_dirty sm) /\
    MIN_FLOAT = AFloat (-1) 99.
Proof.
  intros Hd. unfold execute_session_model. unfold bind at 1.
  destruct (accumulate_delete_returns expire (sm_delete_query sm) st)
    as (st1 & ->).
  destruct (sm_dirty sm) as [|i dirty] eqn:Hdirty; [congruence|].
  cbn [length Nat.ltb Nat.leb].
  destruct (serialize_dirty _ _ _ _) as [[lua_data processed]|e] eqn:Hs;
    [|discriminate].
  apply serialize_dirty_spec in Hs as (records & -> & Hf & ->).
  cbv [bind odmrun emit ret]. intros [= <- <-]. cbn [pipe].
  eexists _, _, records. split; [reflexivity|].
  split; [reflexivity|]. split; [|auto].
  cbn [read_commit app Z.to_nat]. rewrite SuccNat2Pos.id_succ.
  change (S (length dirty)) with (length (i :: dirty)).
  rewrite (Forall2_length Hf). apply read_records_encode.
Qed.

Lemma execute_session_commits_scores_witness :
  exists (before : list command) (commit : command)
         (records : list commit_record),
    pipe (fst (execute_session_model 60 Examples.book_session Examples.st0))
    = before ++ [commit] /\
    is_odmrun "commit" commit = true /\
    read_commit commit = Some records /\
    Forall2 (record_of Examples.book_by_year)
      [Examples.emma; Examples.undated] records /\
    ["a"; "b"] = map (fun i => iid (state_ i)) [Examples.emma; Examples.undated] /\
    MIN_FLOAT = AFloat (-1) 99.
Proof.
  apply (execute_session_commits_scores 60 Examples.book_session Examples.st0
           (fst (execute_session_model 60 Examples.book_session Examples.st0))
           ["a"; "b"]).
  - discriminate.
  - reflexivity.
Defined.

(** The buffer of the two books: the score of the first comes from
    [scorefun], the second, whose [year] is [None], gets [MIN_FLOAT]. *)
Example execute_session_book_session :
  pipe (fst (execute_session_model 60 Examples.book_session Examples.st0))
  = [execute_script "odmrun" []
       [AStr "commit"; AMeta "book"; AInt 2;
        AStr "add"; AStr ""; AInt 1815; AInt 4;
        AStr "title"; AStr "emma"; AStr "year"; AInt 1815;
        AStr "change"; AStr "b"; AFloat (-1) 99; AInt 2;
        AStr "title"; AStr "notes"]].
Proof.
  reflexivity.
Qed.

Section WrapCommitProps.

Variable Float : Type.
Variable float : string -> option Float.
Variable decode : string -> string.

(** C4. Zipping the commit response with the submitted [iids]
    (the store reporting a score with every success), [_wrap_commit] ends
    without an exception and yields one item per zipped pair, in order: for
    a false flag the [CommitException] carrying the store's decoded message,
    for a true flag the success result carrying the instance's [iid], the
    store-assigned id and the score. The item of an instance depends on its
    own triple only: the others are neither dropped nor altered. *)
Theorem wrap_commit_per_instance (response : list commit_response) :
  (forall r, In r response -> r_flag r <> 0%Z -> float (r_info r) <> None) ->
  forall iids : list string,
    snd (_wrap_commit Float float decode response iids) = None /\
    length (fst (_wrap_commit Float float decode response iids))
    = Nat.min (length response) (length iids) /\
    forall (n : nat) (r : commit_response) (iid : string),
      nth_error response n = Some r ->
      nth_error iids n = Some iid ->
      (r_flag r = 0%Z ->
         nth_error (fst (_wrap_commit Float float decode response iids)) n
         = Some (CommitException (decode (r_info r)))) /\
      (r_flag r <> 0%Z ->
         exists score : Float,
           float (r_info r) = Some score /\
           nth_error (fst (_wrap_commit Float float decode response iids)) n
           = Some (instance_session_result iid true (r_id r) false score)).
Proof.
  induction response as [|id response IH]; intros Hfloat iids.
  - cbn. split; [reflexivity|]. split; [reflexivity|].
    intros [|n] r iid Hn; discriminate.
  - destruct iids as [|iid iids].
    + cbn. split; [reflexivity|]. split; [reflexivity|].
      intros [|n] r iid' _ Hn; discriminate.
    + assert (Hrest : forall r, In r response -> r_flag r <> 0%Z ->
                                float (r_info r) <> None)
        by (intros r Hr; apply Hfloat; now right).
      destruct (IH Hrest iids) as (He & Hlen & Hnth).
      cbn [_wrap_commit].
      destruct (Z.eqb_spec (r_flag id) 0) as [Hz|Hnz]; cbn [negb].
      * destruct (_wrap_commit Float float decode response iids) as [rest e].
        cbn [fst snd length] in *.
        split; [exact He|]. split; [now rewrite Hlen|].
        intros [|n] r iid' Hr Hi; cbn [nth_error] in *.
        -- injection Hr as <-. split; [reflexivity|contradiction].
        -- exact (Hnth n r iid' Hr Hi).
      * destruct (float (r_info id)) as [score|] eqn:Hscore;
          [|exfalso; apply (Hfloat id (or_introl eq_refl) Hnz Hscore)].
        destruct (_wrap_commit Float float decode response iids) as [rest e].
        cbn [fst snd length] in *.
        split; [exact He|]. split; [now rewrite Hlen|].
        intros [|n] r iid' Hr Hi; cbn [nth_error] in *.
        -- injection Hr as <-. injection Hi as <-.
           split; [contradiction|]. intros _. exists score. auto.
        -- exact (Hnth n r iid' Hr Hi).
Qed.

End WrapCommitProps.

Lemma wrap_commit_per_instance_witness :
  snd (_wrap_commit Z Examples.float (fun s => s) Examples.response
         ["a"; "b"; "c"]) = None
  /\ fst (_wrap_commit Z Examples.float (fun s => s) Examples.response
            ["a"; "b"; "c"])
     = [instance_session_result "a" true "1" false 10%Z;
        CommitException "title is required";
        instance_session_result "c" true "3" false 30%Z]
  /\ nth_error (fst (_wrap_commit Z Examples.float (fun s => s)
                       Examples.response ["a"; "b"; "c"])) 1
     = Some (CommitException "title is required").
Proof.
  assert (Hfloat : forall r, In r Examples.response -> r_flag r <> 0%Z ->
                             Examples.float (r_info r) <> None).
  { intros r [<-|[<-|[<-|[]]]]; vm_compute; intros Hflag Hscore;
      first [discriminate Hscore | now apply Hflag]. }
  destruct (wrap_commit_per_instance Z Examples.float (fun s => s)
              Examples.response Hfloat ["a"; "b"; "c"]) as (He & _ & Hn).
  split; [exact He|]. split; [reflexivity|].
  exact (proj1 (Hn 1 (CommitResponse "2" 0 "title is required") "b"
                  eq_refl eq_refl) eq_refl).
Defined.

End CommitProps.

(** ** Column timeseries *)

Module ColumnTSProps.

Import ColumnTS.

Lemma operands_session_some (s : string) (operands : list element) :
  operands_session (Some s) operands = Ok (Some s).
Proof.
  induction operands as [|e operands IH]; [reflexivity|exact IH].
Qed.

Lemma operands_session_returns (session : option string)
  (operands : list element) :
  Forall (fun e => exists ts, e = Series ts) operands ->
  exists session', operands_session session operands = Ok session'.
Proof.
  intros H. revert session.
  induction H as [|e operands [ts ->] _ IH]; intros session.
  - exists session. reflexivity.
  - destruct session as [s|]; cbn [operands_session]; [|apply IH].
    exists (Some s). apply operands_session_some.
Qed.

Lemma operands_session_none (operands : list element) :
  Forall (fun e => exists ts, e = Series ts) operands ->
  Forall (fun e => forall ts, e = Series ts -> ColumnTS.session ts = None)
    operands ->
  operands_session None operands = Ok None.
Proof.
  induction 1 as [|e operands [ts ->] _ IH]; intros Hn; [reflexivity|].
  inversion Hn as [|? ? He Hrest]; subst.
  cbn [operands_session]. rewrite (He ts eq_refl). exact (IH Hrest).
Qed.

Lemma series_session_short (series : list serie) :
  Forall operands_are_series series ->
  Exists (fun s => length s < 2) series ->
  forall session,
    series_session session series
    = Raise (ValueError "merge requires tuples of length 2 or more").
Proof.
  induction 1 as [|s series Hs _ IH]; intros Hex session.
  - inversion Hex.
  - cbn [series_session].
    destruct (Nat.ltb_spec (length s) 2) as [Hlt|Hge]; [reflexivity|].
    destruct (operands_session_returns session (tl s) Hs) as (session' & ->).
    apply IH. inversion Hex; subst; [lia|assumption].
Qed.

Lemma series_session_none (series : list serie) :
  Forall operands_are_series series ->
  Forall (fun s => 2 <= length s) series ->
  Forall operands_without_session series ->
  series_session None series = Ok None.
Proof.
  induction 1 as [|s series Hs _ IH]; intros Hlen Hno; [reflexivity|].
  inversion Hlen as [|? ? Hl Hlen']; inversion Hno as [|? ? Hn Hno']; subst.
  cbn [series_session].
  destruct (Nat.ltb_spec (length s) 2) as [Hlt|Hge]; [lia|].
  rewrite (operands_session_none (tl s) Hs Hn). exact (IH Hlen' Hno').
Qed.

(** C8. For a call of [merge] on groups whose operands are timeseries: if
    some group has fewer than two elements, the call raises [ValueError]
    and has made no call on the backend; and if every group has at least
    two elements but neither the target nor any operand is bound to a
    session, the call raises [SessionNotAvailable], again with no call on
    the backend. *)
Theorem merge_raises_before_backend
  (self : columnts) (series : list serie) (fields : list string)
  (calls : list backend_call) :
  Forall operands_are_series series ->
  (Exists (fun s => length s < 2) series ->
     merge self series fields calls
     = (calls, Raise (ValueError "merge requires tuples of length 2 or more")))
  /\ (Forall (fun s => 2 <= length s) series ->
      ColumnTS.session self = None ->
      Forall operands_without_session series ->
      merge self series fields calls
      = (calls, Raise (SessionNotAvailable "No session available"))).
Proof.
  intros Hwf. unfold merge. split.
  - intros Hex. now rewrite (series_session_short series Hwf Hex).
  - intros Hlen -> Hno. now rewrite (series_session_none series Hwf Hlen Hno).
Qed.

Lemma merge_raises_before_backend_witness :
  merge Examples.ts1 [[Weight 5; Series Examples.ts1]; [Weight 2]] [] []
  = ([], Raise (ValueError "merge requires tuples of length 2 or more"))
  /\ merge Examples.ts1 [[Weight 5; Series Examples.ts1]] [] []
     = ([], Raise (SessionNotAvailable "No session available")).
Proof.
  split.
  - apply (merge_raises_before_backend Examples.ts1
             [[Weight 5; Series Examples.ts1]; [Weight 2]] [] []).
    + repeat constructor; eexists; reflexivity.
    + right. left. cbn. lia.
  - apply (merge_raises_before_backend Examples.ts1
             [[Weight 5; Series Examples.ts1]] [] []).
    + repeat constructor; eexists; reflexivity.
    + repeat constructor.
    + reflexivity.
    + repeat constructor. intros ts [= <-]. reflexivity.
Defined.

End ColumnTSProps.

(** ** The session as a whole *)

Module SessionProps.

Import Commit.

Lemma quiet_odmrun (sub : string) (keys : list rkey) (model : string)
  (args : list arg) :
  String.eqb sub "commit" = false ->
  quiet (execute_script "odmrun" keys (AStr sub :: AMeta model :: args)).
Proof.
  intros H. split; [reflexivity|]. cbn. exact H.
Qed.

Lemma dependents_loop_quiet (expire : Z) (meta : Delete.meta) (query_key : rkey)
  (rms : list Delete.rmanager) :
  Forall (fun r => forall key st,
            exists cmds st',
              Delete.accumulate_delete_query expire (Delete.rm_model r) key st
              = (st', Ok tt)
              /\ pipe st' = pipe st ++ cmds /\ Forall quiet cmds) rms ->
  forall st : state,
  exists cmds st',
    Delete.dependents_loop expire meta query_key rms st = (st', Ok tt)
    /\ pipe st' = pipe st ++ cmds /\ Forall quiet cmds.
Proof.
  induction 1 as [|[m a req] rms Hr _ IH]; intros st.
  - exists [], st. cbn. rewrite app_nil_r. auto.
  - cbn [Delete.dependents_loop].
    fold (Delete.dependents_loop expire meta query_key).
    destruct (negb (Delete.same_model meta (Delete.RManager m a req)) && req).
    + destruct st as [p u t].
      unfold bind at 1. unfold bind at 1.
      cbv [Delete.related_backend_query bind tempkey odmrun emit ret].
      cbn [Delete.rm_model Delete.rm_attname pipe uid temps] in *.
      set (k := basekey (Delete.name m) [P TMP; U u]).
      match goal with
      | |- context [Delete.accumulate_delete_query expire m k ?s] =>
          destruct (Hr k s) as (c1 & st1 & -> & Hp1 & Hq1)
      end.
      destruct (IH st1) as (c2 & st' & -> & Hp2 & Hq2).
      exists ([execute_script "odmrun" [k; query_key]
                 [AStr "query"; AMeta (Delete.name m); AStr a; AStr "set";
                  AKey query_key];
               redis "expire" k [AInt expire]] ++ c1 ++ c2), st'.
      split; [reflexivity|]. split.
      * rewrite Hp2, Hp1. cbn [pipe]. rewrite <- !app_assoc. reflexivity.
      * constructor; [split; reflexivity|].
        constructor; [split; reflexivity|].
        apply Forall_app. split; assumption.
    + unfold bind at 1. cbv [ret].
      destruct (IH st) as (cmds & st' & -> & Hp & Hq).
      exists cmds, st'. auto.
Qed.

Lemma accumulate_delete_query_quiet (expire : Z) (m : Delete.meta) :
  forall (key : rkey) (st : state),
  exists cmds st',
    Delete.accumulate_delete_query expire m key st = (st', Ok tt)
    /\ pipe st' = pipe st ++ cmds /\ Forall quiet cmds.
Proof.
  induction m as [name related IH] using DeleteProps.meta_related_ind.
  intros key st.
  rewrite DeleteProps.accumulate_delete_query_unfold.
  unfold bind at 1. rewrite DeleteProps.aggregate_related_spec.
  unfold bind at 1.
  match goal with
  | |- context [Delete.dependents_loop expire ?mt key related ?s] =>
      destruct (dependents_loop_quiet expire mt key related IH s)
        as (cmds & st' & -> & Hp & Hq)
  end.
  cbn [pipe] in Hp. destruct st' as [p' u' t']. cbn [pipe] in Hp. subst p'.
  exists (map (aggregate_command (Delete.Meta name related) [key])
            (filter (Delete.same_model (Delete.Meta name related)) related)
          ++ cmds
          ++ [execute_script "odmrun" [key] [AStr "delete"; AMeta name]]).
  eexists. split; [reflexivity|]. split.
  - cbn [pipe]. rewrite <- !app_assoc. reflexivity.
  - apply Forall_app. split; [|apply Forall_app; split; [exact Hq|]].
    + apply Forall_forall. intros c Hc. apply in_map_iff in Hc as (r & <- & _).
      split; reflexivity.
    + constructor; [|constructor]. split; reflexivity.
Qed.

Lemma accumulate_delete_quiet (expire : Z)
  (delquery : option Delete.backend_query) (st : state) :
  exists cmds st',
    Delete.accumulate_delete expire delquery st = (st', Ok tt)
    /\ pipe st' = pipe st ++ cmds /\ Forall quiet cmds.
Proof.
  destruct delquery as [bq|]; cbn [Delete.accumulate_delete].
  - apply accumulate_delete_query_quiet.
  - exists [], st. rewrite app_nil_r. auto.
Qed.

Lemma serialize_dirty_invalid (meta : meta) (dirty : list instance) :
  Exists (fun i => is_valid i = false) dirty ->
  forall lua_data processed,
  exists e, serialize_dirty meta dirty lua_data processed = Raise e.
Proof.
  induction 1 as [i dirty Hi|i dirty _ IH]; intros lua_data processed;
    cbn [serialize_dirty].
  - rewrite Hi. cbn. eauto.
  - destruct (is_valid i); cbn [negb]; [|eauto].
    destruct (instance_score meta i); eauto.
Qed.

(** What one model session does to the pipeline: it appends commands none
    of which runs the pipeline, at most one of them a commit script call,
    the last one, and that exactly when it returns and has dirty
    instances. *)
Lemma execute_session_model_spec (expire : Z) (sm : session_model) (st : state) :
  exists cmds st' r,
    execute_session_model expire sm st = (st', r)
    /\ pipe st' = pipe st ++ cmds
    /\ Forall (fun c => is_execute c = false) cmds
    /\ length (filter (is_odmrun "commit") cmds)
       = (match r with
          | Ok _ => if truthy (sm_dirty sm) then 1 else 0
          | Raise _ => 0
          end)
    /\ (Exists (fun i => is_valid i = false) (sm_dirty sm) ->
        exists e, r = Raise e).
Proof.
  unfold execute_session_model. unfold bind at 1.
  destruct (accumulate_delete_quiet expire (sm_delete_query sm) st)
    as (cmds & st1 & -> & Hp & Hq).
  assert (Hex : Forall (fun c => is_execute c = false) cmds)
    by (eapply Forall_impl; [|exact Hq]; intros c Hc; exact (proj1 Hc)).
  assert (Hcommit : filter (is_odmrun "commit") cmds = []).
  { clear Hp Hex. induction Hq as [|c cmds [_ Hc] _ IH]; [reflexivity|].
    cbn [filter]. rewrite Hc. exact IH. }
  destruct (sm_dirty sm) as [|i dirty] eqn:Hdirty.
  - exists cmds, st1, (Ok []). cbn. rewrite Hcommit.
    repeat split; auto. intros H; inversion H.
  - cbn [length Nat.ltb Nat.leb truthy].
    destruct (serialize_dirty _ _ _ _) as [[lua_data processed]|e] eqn:Hs.
    + destruct st1 as [p1 u1 t1]. cbv [bind odmrun emit ret]. cbn [pipe uid temps].
      exists (cmds ++ [execute_script "odmrun" []
                         (AStr "commit" :: AMeta (model (sm_meta sm)) :: lua_data)]).
      eexists _, _. split; [reflexivity|]. cbn [pipe] in *.
      split; [rewrite Hp, <- app_assoc; reflexivity|].
      split; [apply Forall_app; split; [exact Hex|repeat constructor]|].
      split.
      * rewrite filter_app, Hcommit. reflexivity.
      * intros Hinv.
        destruct (serialize_dirty_invalid (sm_meta sm) (i :: dirty) Hinv
                    [AInt (Z.of_nat (S (length dirty)))] []) as (e & He).
        cbn [length] in Hs. rewrite He in Hs. discriminate.
    + exists cmds, st1, (Raise e). cbv [raise]. rewrite Hcommit.
      repeat split; eauto.
Qed.

(** X7. If some dirty instance of some model of the session fails
    validation, [execute_session] raises, and it has not run the pipeline:
    no [execute] is among the commands it queued, so nothing of the session
    has been sent. *)
Theorem execute_session_invalid_never_executes
  (expire : Z) (session : list session_model) (st : state) :
  Exists (fun sm => Exists (fun i => is_valid i = false) (sm_dirty sm)) session ->
  exists cmds st' e,
    execute_session expire session st = (st', Raise e)
    /\ pipe st' = pipe st ++ cmds
    /\ existsb is_execute cmds = false.
Proof.
  intros H. revert st.
  induction session as [|sm session IH]; intros st; [inversion H|].
  cbn [execute_session]. unfold bind at 1.
  destruct (execute_session_model_spec expire sm st)
    as (cmds & st1 & r & -> & Hp & Hex & _ & Hinv).
  assert (Hno : existsb is_execute cmds = false).
  { clear Hp. induction Hex as [|c cmds Hc _ IHc]; [reflexivity|].
    cbn. now rewrite Hc. }
  destruct r as [iids|e].
  - assert (Hrest : Exists (fun sm => Exists (fun i => is_valid i = false)
                                        (sm_dirty sm)) session).
    { inversion H as [? ? Hsm|]; subst; [|assumption].
      destruct (Hinv Hsm) as (e & He). discriminate. }
    destruct (IH Hrest st1) as (cmds' & st' & e & -> & Hp' & Hno').
    exists (cmds ++ cmds'), st', e. split; [reflexivity|].
    split; [rewrite Hp', Hp, app_assoc; reflexivity|].
    rewrite existsb_app, Hno, Hno'. reflexivity.
  - exists cmds, st1, e. auto.
Qed.

Lemma execute_session_invalid_never_executes_witness :
  exists cmds st' e,
    execute_session 60 [Examples.book_session; Examples.bad_session] Examples.st0
    = (st', Raise e)
    /\ pipe st' = pipe Examples.st0 ++ cmds
    /\ existsb is_execute cmds = false.
Proof.
  apply (execute_session_invalid_never_executes 60
           [Examples.book_session; Examples.bad_session] Examples.st0).
  right. left. right. left. reflexivity.
Defined.

(** X8. When [execute_session] returns, it has queued one commit script
    call for each model of the session that has dirty instances, none for a
    model without, and then run the pipeline once, as its last action. *)
Theorem execute_session_one_commit_per_model
  (expire : Z) (session : list session_model) (st st' : state) :
  execute_session expire session st = (st', Ok tt) ->
  exists cmds,
    pipe st' = pipe st ++ cmds ++ [execute]
    /\ existsb is_execute cmds = false
    /\ length (filter (is_odmrun "commit") cmds)
       = length (filter (fun sm => truthy (sm_dirty sm)) session).
Proof.
  revert st. induction session as [|sm session IH]; intros st.
  - cbn. intros [= <-]. exists []. cbn. auto.
  - cbn [execute_session]. unfold bind at 1.
    destruct (execute_session_model_spec expire sm st)
      as (cmds & st1 & r & -> & Hp & Hex & Hc & _).
    destruct r as [iids|e]; [|discriminate].
    intros H. apply IH in H as (cmds' & Hp' & Hex' & Hc').
    exists (cmds ++ cmds'). split; [|split].
    + rewrite Hp', Hp, <- !app_assoc. reflexivity.
    + rewrite existsb_app, Hex', orb_false_r.
      clear Hp Hc. induction Hex as [|c cmds Hce _ IHc]; [reflexivity|].
      cbn. now rewrite Hce.
    + rewrite filter_app, length_app, Hc, Hc'. cbn [filter].
      destruct (truthy (sm_dirty sm)); reflexivity.
Qed.

Lemma execute_session_one_commit_per_model_witness :
  exists cmds,
    pipe (fst (execute_session 60
                 [Examples.book_session;
                  SessionModel Examples.book_by_year None []] Examples.st0))
    = pipe Examples.st0 ++ cmds ++ [execute]
    /\ existsb is_execute cmds = false
    /\ length (filter (is_odmrun "commit") cmds)
       = length (filter (fun sm => truthy (sm_dirty sm))
                   [Examples.book_session;
                    SessionModel Examples.book_by_year None []]).
Proof.
  apply (execute_session_one_commit_per_model 60
           [Examples.book_session; SessionModel Examples.book_by_year None []]
           Examples.st0).
  reflexivity.
Defined.





End SessionProps.

(** ** Script callbacks *)

Module ScriptsProps.

Import Scripts.

Lemma dict_get_set {V : Type} (d : dict V) (k k' : string) (v : V) :
  dict_get (dict_set d k v) k'
  = if String.eqb k k' then Some v else dict_get d k'.
Proof.
  induction d as [|[k0 v0] d IH]; cbn [dict_set dict_get].
  - reflexivity.
  - destruct (String.eqb_spec k0 k) as [->|Hne]; cbn [dict_get].
    + destruct (String.eqb k k'); reflexivity.
    + rewrite IH. destruct (String.eqb_spec k0 k') as [->|Hne'];
        [|reflexivity].
      destruct (String.eqb_spec k k'); [congruence|reflexivity].
Qed.

Lemma dict_set_keys {V : Type} (d : dict V) (k : string) (v : V) :
  map fst (dict_set d k v)
  = if existsb (String.eqb k) (map fst d) then map fst d
    else map fst d ++ [k].
Proof.
  induction d as [|[k0 v0] d IH]; cbn [dict_set map fst existsb app].
  - reflexivity.
  - rewrite (String.eqb_sym k k0).
    destruct (String.eqb_spec k0 k) as [->|Hne]; cbn [map fst orb].
    + reflexivity.
    + rewrite IH. destruct (existsb (String.eqb k) (map fst d)); reflexivity.
Qed.

Lemma dict_set_nodup {V : Type} (d : dict V) (k : string) (v : V) :
  NoDup (map fst d) -> NoDup (map fst (dict_set d k v)).
Proof.
  intros Hd. rewrite dict_set_keys.
  destruct (existsb (String.eqb k) (map fst d)) eqn:Hex; [exact Hd|].
  apply NoDup_app; [exact Hd|repeat constructor; intros []|].
  intros x Hx [Heq|[]]. subst x.
  assert (existsb (String.eqb k) (map fst d) = true); [|congruence].
  apply existsb_exists. exists k. split; [exact Hx|apply String.eqb_refl].
Qed.

Lemma dict_set_fresh {V : Type} (d : dict V) (k : string) (v : V) :
  ~ In k (map fst d) -> dict_set d k v = d ++ [(k, v)].
Proof.
  induction d as [|[k0 v0] d IH]; cbn [dict_set map fst In app]; intros Hk.
  - reflexivity.
  - destruct (String.eqb_spec k0 k) as [->|Hne]; [tauto|].
    rewrite IH; tauto.
Qed.

Lemma zip_it_flat_pairs (kvs : list (string * string)) (tail : list string) :
  length tail <= 1 -> zip_it (flat_pairs kvs ++ tail) = kvs.
Proof.
  intros Ht. induction kvs as [|[k v] kvs IH].
  - destruct tail as [|x [|y tail]]; cbn in *; [reflexivity|reflexivity|lia].
  - cbn. unfold flat_pairs in IH. now rewrite IH.
Qed.

Section PairsToDictProps.

Variable decode : string -> string.

Lemma dict_of_items_get (kvs : list (string * string)) :
  forall (d : dict string) (k : string),
    dict_get (fold_left (fun d kv => dict_set d (fst kv) (snd kv))
                (map (fun kv => (decode (fst kv), snd kv)) kvs) d) k
    = match last_binding decode kvs k with
      | Some v => Some v
      | None => dict_get d k
      end.
Proof.
  induction kvs as [|[k0 v0] kvs IH]; intros d k; cbn [map fold_left last_binding].
  - reflexivity.
  - rewrite IH. cbn [fst snd].
    destruct (last_binding decode kvs k); [reflexivity|].
    rewrite dict_get_set. destruct (String.eqb (decode k0) k); reflexivity.
Qed.

Lemma dict_of_items_nodup (items : list (string * string)) :
  forall d : dict string,
    NoDup (map fst d) ->
    NoDup (map fst (fold_left (fun d kv => dict_set d (fst kv) (snd kv)) items d)).
Proof.
  induction items as [|kv items IH]; intros d Hd; cbn [fold_left];
    [exact Hd|].
  apply IH, dict_set_nodup, Hd.
Qed.

Lemma dict_of_items_fresh (items : list (string * string)) :
  forall d : dict string,
    NoDup (map fst (d ++ items)) ->
    fold_left (fun d kv => dict_set d (fst kv) (snd kv)) items d = d ++ items.
Proof.
  induction items as [|[k v] items IH]; intros d Hd; cbn [fold_left fst snd].
  - now rewrite app_nil_r.
  - rewrite dict_set_fresh.
    + rewrite IH; rewrite <- app_assoc; [reflexivity|exact Hd].
    + rewrite map_app in Hd. cbn [map fst] in Hd.
      apply NoDup_remove_2 in Hd. intros Hin. apply Hd.
      apply in_or_app. now left.
Qed.

(** X10. The dictionary [pairs_to_dict] builds from a flat reply has each
    key once, and looking a key up gives the value of the last pair of the
    reply whose decoded key it is (none when there is no such pair); an
    unpaired last item of the reply is ignored. *)
Theorem pairs_to_dict_last_pair_wins (response : list string) (k : string) :
  NoDup (map fst (pairs_to_dict decode response))
  /\ dict_get (pairs_to_dict decode response) k
     = last_binding decode (zip_it response) k
  /\ (forall x, Nat.Even (length response) ->
        pairs_to_dict decode (response ++ [x]) = pairs_to_dict decode response).
Proof.
  unfold pairs_to_dict, dict_of. split; [|split].
  - apply dict_of_items_nodup. constructor.
  - rewrite dict_of_items_get. destruct (last_binding decode _ k); reflexivity.
  - intros x [n Hn]. f_equal. f_equal.
    revert response Hn. induction n as [|n IH]; intros response Hn.
    + destruct response; [reflexivity|cbn in Hn; lia].
    + destruct response as [|a [|b response]]; cbn [length] in Hn; try lia.
      cbn [app zip_it]. f_equal. apply IH. lia.
Qed.

(** X11. Round trip: when the decoded keys of the pairs are all different,
    [pairs_to_dict] of the flat reply that lists them (followed or not by
    one stray item) is the list of the pairs itself, keys decoded, in the
    order of the reply. *)
Theorem pairs_to_dict_flat_pairs
  (kvs : list (string * string)) (tail : list string) :
  NoDup (map (fun kv => decode (fst kv)) kvs) ->
  length tail <= 1 ->
  pairs_to_dict decode (flat_pairs kvs ++ tail)
  = map (fun kv => (decode (fst kv), snd kv)) kvs.
Proof.
  intros Hnd Ht. unfold pairs_to_dict, dict_of.
  rewrite zip_it_flat_pairs by exact Ht.
  rewrite dict_of_items_fresh; [reflexivity|].
  cbn [app]. rewrite map_map. exact Hnd.
Qed.

End PairsToDictProps.

Lemma pairs_to_dict_flat_pairs_witness :
  pairs_to_dict (fun s => s)
    (flat_pairs [("title", "emma"); ("year", "1815")] ++ ["stray"])
  = map (fun kv => (fst kv, snd kv)) [("title", "emma"); ("year", "1815")].
Proof.
  apply (pairs_to_dict_flat_pairs (fun s => s)
           [("title", "emma"); ("year", "1815")] ["stray"]).
  - repeat constructor; cbn; intuition discriminate.
  - cbn. lia.
Defined.

Lemma check_structures_callback_acc {T : Type} (response : list T) :
  forall (instances : list structure_instance) (results : list structure_result),
    check_structures_callback response instances results
    = if existsb undeletable (firstn (length response) instances)
      then Raise (NameError "InvalidTransaction")
      else Ok (results ++ map result_of (firstn (length response) instances)).
Proof.
  induction response as [|type response IH]; intros instances results.
  - cbn. now rewrite app_nil_r.
  - destruct instances as [|instance instances]; cbn [check_structures_callback].
    + cbn. now rewrite app_nil_r.
    + cbn [length firstn existsb map]. unfold undeletable at 1.
      destruct (Commit.deleted (si_state instance)
                && Commit.persistent (si_state instance)); cbn [orb];
        [reflexivity|].
      rewrite IH. destruct (existsb undeletable _); [reflexivity|].
      rewrite <- app_assoc. reflexivity.
Qed.

(** X12. [check_structures.callback] pairs the reply with the instances: if
    one of the paired instances is flagged deleted while still persistent,
    the callback raises and returns no result at all; otherwise it returns
    one result per paired instance, in order, carrying the instance's [iid],
    the instance, its id, its deleted flag and the score 0. Instances beyond
    the length of the reply are left out. *)
Theorem check_structures_callback_all_or_nothing {T : Type}
  (response : list T) (instances : list structure_instance) :
  check_structures_callback response instances []
  = if existsb undeletable (firstn (length response) instances)
    then Raise (NameError "InvalidTransaction")
    else Ok (map result_of (firstn (length response) instances)).
Proof.
  exact (check_structures_callback_acc response instances []).
Qed.

End ScriptsProps.

(** ** More on merge and on the commit response *)

Module MergeProps.

Import ColumnTS.

Lemma operands_session_first (operands : list element) :
  Forall (fun e => exists ts, e = Series ts) operands ->
  forall session,
    operands_session session operands
    = Ok (match session with
          | Some s => Some s
          | None => hd_error (sessions_of operands)
          end).
Proof.
  induction 1 as [|e operands [ts ->] _ IH]; intros session.
  - destruct session; reflexivity.
  - destruct session as [s|]; cbn [operands_session].
    + apply ColumnTSProps.operands_session_some.
    + rewrite IH. cbn [sessions_of flat_map].
      destruct (ColumnTS.session ts); reflexivity.
Qed.

Lemma hd_error_app {A : Type} (l1 l2 : list A) :
  hd_error (l1 ++ l2)
  = match hd_error l1 with Some x => Some x | None => hd_error l2 end.
Proof.
  destruct l1; reflexivity.
Qed.

Lemma series_session_first (series : list serie) :
  Forall operands_are_series series ->
  Forall (fun s => 2 <= length s) series ->
  forall session,
    series_session session series
    = Ok (match session with
          | Some s => Some s
          | None => hd_error (operand_sessions series)
          end).
Proof.
  induction 1 as [|s series Hs _ IH]; intros Hlen session.
  - destruct session; reflexivity.
  - inversion Hlen as [|? ? Hl Hlen']; subst. cbn [series_session].
    destruct (Nat.ltb_spec (length s) 2) as [Hlt|_]; [lia|].
    rewrite (operands_session_first (tl s) Hs), (IH Hlen').
    destruct session as [x|]; [reflexivity|].
    cbn [operand_sessions flat_map]. rewrite hd_error_app.
    fold (sessions_of (tl s)). destruct (hd_error (sessions_of (tl s)));
      reflexivity.
Qed.

(** X13. For groups of at least two elements whose operands are timeseries,
    [merge] settles on the target's own session when it has one, and
    otherwise on the session of the first operand, in the order of the
    groups, that is bound to one. With a session it calls the backend merge
    once and then adds the target to that session, and returns the target
    bound to it; with none it raises [SessionNotAvailable] having called
    nothing. *)
Theorem merge_binds_first_session
  (self : columnts) (series : list serie) (fields : list string)
  (calls : list backend_call) :
  Forall operands_are_series series ->
  Forall (fun s => 2 <= length s) series ->
  merge self series fields calls
  = match chosen_session self series with
    | Some session =>
        (calls ++ [backend_merge (ts_id self) series fields;
                   session_add session (ts_id self)],
         Ok (ColumnTS_ (ts_id self) (Some session)))
    | None => (calls, Raise (SessionNotAvailable "No session available"))
    end.
Proof.
  intros Hwf Hlen. unfold merge, chosen_session.
  rewrite (series_session_first series Hwf Hlen).
  destruct (ColumnTS.session self); [reflexivity|].
  destruct (hd_error (operand_sessions series)); reflexivity.
Qed.

Lemma merge_binds_first_session_witness :
  merge Examples.ts1
    [[Weight 1; Series Examples.ts1]; [Weight 2; Series Examples.ts2]] [] []
  = ([backend_merge "ts1"
        [[Weight 1; Series Examples.ts1]; [Weight 2; Series Examples.ts2]] [];
      session_add "s2" "ts1"],
     Ok (ColumnTS_ "ts1" (Some "s2"))).
Proof.
  apply (merge_binds_first_session Examples.ts1
           [[Weight 1; Series Examples.ts1]; [Weight 2; Series Examples.ts2]]
           [] []).
  - repeat constructor; eexists; reflexivity.
  - repeat constructor.
Defined.

End MergeProps.

Module WrapCommitProps.

Import Commit.

Section Prefix.

Variable Float : Type.
Variable float : string -> option Float.
Variable decode : string -> string.

(** X14. Whatever the response, every item [_wrap_commit] yields is the one
    of the response triple and the [iid] at its own position: the exception
    with the decoded message for a false flag, the success with the store's
    id and score for a true one. The generator is interrupted exactly when
    some paired success triple carries a score [float] cannot read; the
    items yielded before it are those of the instances before it. *)
Theorem wrap_commit_items_by_position
  (response : list commit_response) (iids : list string) :
  (forall n item,
      nth_error (fst (_wrap_commit Float float decode response iids)) n
      = Some item ->
      exists r iid,
        nth_error response n = Some r /\ nth_error iids n = Some iid
        /\ wrapped float decode r iid item)
  /\ (snd (_wrap_commit Float float decode response iids) <> None
      <-> exists n r,
          n < length iids /\ nth_error response n = Some r
          /\ r_flag r <> 0%Z /\ float (r_info r) = None).
Proof.
  revert iids. induction response as [|id response IH]; intros iids.
  - cbn. split.
    + intros [|n] item H; discriminate.
    + split; [congruence|]. intros (n & r & _ & H & _). destruct n; discriminate.
  - destruct iids as [|iid iids].
    + cbn. split.
      * intros [|n] item H; discriminate.
      * split; [congruence|]. intros (n & r & Hn & _). cbn in Hn. lia.
    + destruct (IH iids) as (Hitems & Hexn). cbn [_wrap_commit].
      destruct (Z.eqb_spec (r_flag id) 0) as [Hz|Hnz]; cbn [negb].
      * destruct (_wrap_commit Float float decode response iids) as [rest e].
        cbn [fst snd] in *. split.
        -- intros [|n] item H; cbn [nth_error] in *.
           ++ injection H as <-. exists id, iid. repeat split.
              unfold wrapped. destruct (Z.eqb_spec (r_flag id) 0); [reflexivity|].
              contradiction.
           ++ exact (Hitems n item H).
        -- rewrite Hexn. split.
           ++ intros (n & r & Hn & Hr & Hf & Hs).
              exists (S n), r. cbn [length nth_error]. repeat split; auto; lia.
           ++ intros (n & r & Hn & Hr & Hf & Hs).
              destruct n as [|n]; cbn [length nth_error] in *.
              ** injection Hr as <-. contradiction.
              ** exists n, r. repeat split; auto; lia.
      * destruct (float (r_info id)) as [score|] eqn:Hscore.
        -- destruct (_wrap_commit Float float decode response iids) as [rest e].
           cbn [fst snd] in *. split.
           ++ intros [|n] item H; cbn [nth_error] in *.
              ** injection H as <-. exists id, iid. repeat split.
                 unfold wrapped.
                 destruct (Z.eqb_spec (r_flag id) 0); [contradiction|].
                 exists score. auto.
              ** exact (Hitems n item H).
           ++ rewrite Hexn. split.
              ** intros (n & r & Hn & Hr & Hf & Hs).
                 exists (S n), r. cbn [length nth_error].
                 repeat split; auto; lia.
              ** intros (n & r & Hn & Hr & Hf & Hs).
                 destruct n as [|n]; cbn [length nth_error] in *.
                 --- injection Hr as <-. congruence.
                 --- exists n, r. repeat split; auto; lia.
        -- cbn [fst snd]. split.
           ++ intros [|n] item H; discriminate.
           ++ split; [|congruence]. intros _. exists 0, id.
              cbn. repeat split; auto; lia.
Qed.

End Prefix.

End WrapCommitProps.

(** ** Fields *)

Module FieldsProps.

Import Fields.

(** X15. When the ordering field of a model scores with [Field.scorefun],
    [IntegerField.scorefun] or [BooleanField.scorefun], the score
    [execute_session] computes for an instance is never [None]: an instance
    whose ordering attribute is [None] gets [MIN_FLOAT], since the field's
    [scorefun] is only called on a value that is not [None]. *)
Theorem instance_score_never_None
  (int_ : arg -> result Z) (model name : string)
  (scorefun : arg -> result arg) (instance : Commit.instance) (score : arg) :
  In scorefun [Field_scorefun; IntegerField_scorefun int_;
               BooleanField_scorefun int_] ->
  Commit.instance_score
    (Commit.Meta model (Some (Commit.FieldOrdering name scorefun))) instance
  = Ok score ->
  score <> ANone.
Proof.
  intros Hin. unfold Commit.instance_score. cbn [Commit.m_ordering].
  destruct (Commit.getattr (Commit.attrs instance) name) eqn:Hv;
    cbn [Commit.is_None negb];
    try (intros [= <-]; discriminate);
    destruct Hin as [<-|[<-|[<-|[]]]];
    unfold Field_scorefun, IntegerField_scorefun, BooleanField_scorefun;
    cbn [Commit.is_None negb];
    try (intros [= <-]; discriminate);
    match goal with
    | |- context [int_ ?v] => destruct (int_ v)
    end; intros [= <-]; discriminate.
Qed.

Lemma instance_score_never_None_witness :
  Commit.instance_score
    (Commit.Meta "book"
       (Some (Commit.FieldOrdering "year" (IntegerField_scorefun Examples.int_))))
    Examples.emma
  = Ok (AInt 1815)
  /\ AInt 1815 <> ANone.
Proof.
  split; [reflexivity|].
  apply (instance_score_never_None Examples.int_ "book" "year"
           (IntegerField_scorefun Examples.int_) Examples.emma (AInt 1815)).
  - right. left. reflexivity.
  - reflexivity.
Defined.

(** X16. Given that [int] returns an integer as it is,
    [BooleanField.scorefun] returns 0 or 1 whenever it returns, and scoring
    a score again gives the same score. *)
Theorem BooleanField_scorefun_idempotent
  (int_ : arg -> result Z) (value score : arg) :
  (forall z, int_ (AInt z) = Ok z) ->
  BooleanField_scorefun int_ value = Ok score ->
  (score = AInt 0 \/ score = AInt 1)
  /\ BooleanField_scorefun int_ score = Ok score.
Proof.
  intros Hint. unfold BooleanField_scorefun.
  destruct (Commit.is_None value).
  - intros [= <-]. cbn. rewrite Hint. cbn. auto.
  - destruct (int_ value) as [z|e]; [|discriminate].
    intros [= <-]. destruct (z =? 0)%Z; cbn; rewrite Hint; cbn; auto.
Qed.

Lemma BooleanField_scorefun_idempotent_witness :
  (AInt 1 = AInt 0 \/ AInt 1 = AInt 1)
  /\ BooleanField_scorefun Examples.int_ (AInt 1) = Ok (AInt 1).
Proof.
  apply (BooleanField_scorefun_idempotent Examples.int_ (AStr "7") (AInt 1)).
  - intros z. reflexivity.
  - reflexivity.
Defined.

(** X17. Every field [Field.__init__] builds is indexed when it is unique,
    and unique, required and indexed when it is the primary key, whatever
    [unique], [required] and [index] were passed; only a field that is not
    the primary key keeps the [unique] and [required] it was given. A
    keyword argument other than [charset] and [default] among the extras
    makes the constructor raise [TypeError]. *)
Theorem Field_init_invariants (cls : field_class) (kw : field_kwargs) :
  match Field_init cls kw with
  | inr f =>
      (unique f = true -> index f = true)
      /\ (primary_key f = true ->
          unique f = true /\ required f = true /\ index f = true)
      /\ (primary_key f = false ->
          unique f = kw_unique kw /\ required f = kw_required kw)
      /\ primary_key f = kw_primary_key kw
      /\ Forall (fun k => k = "charset" \/ k = "default") (kw_extras kw)
  | inl _ =>
      exists k, In k (kw_extras kw) /\ k <> "charset" /\ k <> "default"
  end.
Proof.
  unfold Field_init.
  set (extras := filter _ (filter _ (kw_extras kw))).
  assert (Hex : forall k, In k extras <->
                          In k (kw_extras kw) /\ k <> "charset" /\ k <> "default").
  { intros k. unfold extras. rewrite !filter_In, !negb_true_iff.
    rewrite !String.eqb_neq. tauto. }
  destruct (kw_primary_key kw), (kw_unique kw); cbn;
    (destruct extras as [|key extras'] eqn:He;
     [|exists key; apply Hex; now left]);
    cbn; repeat split; auto; try discriminate;
    apply Forall_forall; intros k Hk;
    destruct (String.eqb_spec k "charset") as [|Hc]; auto;
    destruct (String.eqb_spec k "default") as [|Hd]; auto;
    exfalso; apply (proj2 (Hex k)); auto.
Qed.

(** X18. [ForeignKey._set_relmodel] settles on the given related name, or
    on the name of the model holding the key followed by [_set] when none
    (or an empty one) is given. When that name is already a related name or
    a field name of the related model it raises and registers nothing.
    Otherwise it returns, the name now names the model holding the key,
    every related name that was there still names what it named, no other
    related name appears, and the field names are untouched: a relation is
    added, never replaced. *)
Theorem set_relmodel_never_replaces (duplicated : exn)
  (model : string) (related_name : option string) (meta : relmeta) :
  exists name,
    (forall n, related_name = Some n -> n <> EmptyString -> name = n)
    /\ (related_name = None \/ related_name = Some EmptyString ->
        name = String.append model "_set")
    /\ (In name (map fst (rel_related meta)) \/ In name (rel_dfields meta) ->
        _set_relmodel duplicated model related_name meta = Raise duplicated)
    /\ (~ In name (map fst (rel_related meta)) ->
        ~ In name (rel_dfields meta) ->
        exists meta',
          _set_relmodel duplicated model related_name meta = Ok (name, meta')
          /\ Scripts.dict_get (rel_related meta') name = Some model
          /\ (forall n m, Scripts.dict_get (rel_related meta) n = Some m ->
                          Scripts.dict_get (rel_related meta') n = Some m)
          /\ (forall n, In n (map fst (rel_related meta'))
                        <-> n = name \/ In n (map fst (rel_related meta)))
          /\ rel_name meta' = rel_name meta
          /\ rel_dfields meta' = rel_dfields meta).
Proof.
  unfold _set_relmodel.
  set (name := match (if Query.truthy_opt related_name then related_name
                      else None) with
               | Some related_name => related_name
               | None => String.append model "_set"
               end).
  assert (Hc : forall names, contains names name = true <-> In name names).
  { intros names. unfold contains. rewrite existsb_exists. split.
    - intros (x & Hx & He). apply String.eqb_eq in He. now subst x.
    - intros H. exists name. split; [exact H|apply String.eqb_refl]. }
  assert (Hget : forall (d : Scripts.dict string) k,
             Scripts.dict_get d k = None <-> ~ In k (map fst d)).
  { intros d k. induction d as [|[k0 v0] d IH]; cbn; [tauto|].
    destruct (String.eqb_spec k0 k) as [->|Hne]; [split; [discriminate|tauto]|].
    rewrite IH. tauto. }
  exists name. split; [|split; [|split]].
  - intros n -> Hn. unfold name. destruct n; [contradiction|reflexivity].
  - intros [->| ->]; reflexivity.
  - intros [H|H]; apply Hc in H; rewrite H; [reflexivity|].
    destruct (contains (map fst (rel_related meta)) name); reflexivity.
  - intros Hnr Hnd.
    destruct (contains (map fst (rel_related meta)) name) eqn:Hr;
      [apply Hc in Hr; contradiction|].
    destruct (contains (rel_dfields meta) name) eqn:Hd;
      [apply Hc in Hd; contradiction|].
    cbn [negb andb]. eexists. split; [reflexivity|].
    cbn [rel_related rel_dfields rel_name].
    split; [rewrite ScriptsProps.dict_get_set, String.eqb_refl; reflexivity|].
    split; [|split; [|split; reflexivity]].
    + intros n m Hn. rewrite ScriptsProps.dict_get_set.
      destruct (String.eqb_spec name n) as [<-|]; [|exact Hn].
      apply Hget in Hnr. congruence.
    + intros n. rewrite ScriptsProps.dict_set_keys.
      destruct (existsb (String.eqb name) (map fst (rel_related meta))) eqn:Hex.
      * apply existsb_exists in Hex as (x & Hx & He).
        apply String.eqb_eq in He. subst x. contradiction.
      * rewrite in_app_iff. cbn [In]. intuition.
Qed.

End FieldsProps.

(** ** Flat JSON fields, related fields, structure keys *)

Module JsonToolsProps.

Import JsonTools.

Lemma jvalue_items_ind (Pv : jvalue -> Prop)
  (Hleaf : forall v, Pv (JLeaf v))
  (Hdict : forall items, Forall (fun kv => Pv (snd kv)) items -> Pv (JDict items)) :
  forall value, Pv value.
Proof.
  fix IH 1. intros [v|items]; [apply Hleaf|]. apply Hdict.
  induction items as [|[k val] items IHitems]; constructor;
    [apply IH|exact IHitems].
Qed.

Section DictFlatProps.

Variable attname : option string.
Variable splitter : string.
Variable dumps : option (jvalue -> result string).
Variable error : string -> exn.

Lemma dict_flat_generator_dict (items : list (string * jvalue))
  (prefix : option string) :
  dict_flat_generator attname splitter dumps error (JDict items) prefix true
  = flat_items attname splitter dumps error prefix items.
Proof.
  reflexivity.
Qed.

Lemma truthy_prefix_some (prefix : option string) (p : string) :
  truthy_prefix prefix = Some p -> truthy_str p = true.
Proof.
  destruct prefix as [q|]; cbn; [|discriminate].
  destruct (truthy_str q) eqn:Hq; [|discriminate]. now intros [= <-].
Qed.

Lemma dict_flat_generator_qualified (value : jvalue) :
  forall prefix recursive pairs,
    dict_flat_generator attname splitter dumps error value prefix recursive
    = Ok pairs ->
    Forall (fun pair => qualified attname splitter (fst pair)) pairs.
Proof.
  induction value as [v|items IH] using jvalue_items_ind;
    intros prefix recursive pairs.
  - cbn [dict_flat_generator].
    destruct (truthy_prefix prefix) as [p|] eqn:Hp; [|discriminate].
    destruct (dumped dumps (JLeaf v)) as [d|e]; [|discriminate].
    intros [= <-]. constructor; [|constructor].
    exists p. split; [exact (truthy_prefix_some _ _ Hp)|reflexivity].
  - destruct recursive.
    + rewrite dict_flat_generator_dict. revert pairs.
      induction IH as [|[field val] items Hval _ IHitems]; intros pairs;
        cbn [flat_items].
      * intros [= <-]. constructor.
      * fold (flat_items attname splitter dumps error prefix).
        cbn [snd] in Hval.
        match goal with
        | |- context [dict_flat_generator _ _ _ _ val ?k ?r] =>
            destruct (dict_flat_generator attname splitter dumps error val k r)
              as [l|e] eqn:Hl; [apply Hval in Hl|discriminate]
        end.
        destruct (flat_items attname splitter dumps error prefix items)
          as [rest|e]; [|discriminate].
        intros [= <-]. apply Forall_app. split; [exact Hl|now apply IHitems].
    + cbn [dict_flat_generator].
      destruct (truthy_prefix prefix) as [p|] eqn:Hp; [|discriminate].
      destruct (dumped dumps (JDict items)) as [d|e]; [|discriminate].
      intros [= <-]. constructor; [|constructor].
      exists p. split; [exact (truthy_prefix_some _ _ Hp)|reflexivity].
Qed.

Lemma truthy_append (a b : string) :
  truthy_str b = true -> truthy_str (String.append a b) = true.
Proof.
  destruct a; [auto|reflexivity].
Qed.

(** Below a prefix that is not empty the generator raises only what [dumps]
    raises, on the first value it cannot encode. *)
Lemma dict_flat_generator_yields (value : jvalue) :
  forall prefix recursive,
    truthy_prefix prefix <> None ->
    match dict_flat_generator attname splitter dumps error value prefix
            recursive with
    | Ok pairs =>
        Forall2 (fun v pair => dumped dumps v = Ok (snd pair))
          (yielded value recursive) pairs
    | Raise e =>
        exists v, In v (yielded value recursive) /\ dumped dumps v = Raise e
    end.
Proof.
  induction value as [v|items IH] using jvalue_items_ind;
    intros prefix recursive Hp.
  - cbn [dict_flat_generator yielded].
    destruct (truthy_prefix prefix); [|congruence].
    destruct (dumped dumps (JLeaf v)) as [d|e] eqn:Hd.
    + constructor; [exact Hd|constructor].
    + exists (JLeaf v). split; [now left|exact Hd].
  - destruct recursive.
    + rewrite dict_flat_generator_dict. cbn [yielded].
      induction IH as [|[field val] items Hval _ IHitems];
        cbn [flat_items flat_map fst snd].
      * constructor.
      * fold (flat_items attname splitter dumps error prefix).
        cbn [snd] in Hval.
        destruct (truthy_prefix prefix) as [p|] eqn:Hpp; [|congruence].
        assert (Hk : truthy_prefix
                       (if truthy_str field
                        then Some (String.append p (String.append splitter field))
                        else prefix) <> None).
        { destruct (truthy_str field) eqn:Hf; [|congruence].
          cbn. rewrite truthy_append; [discriminate|].
          now apply truthy_append. }
        specialize (Hval _ (truthy_str field) Hk).
        destruct (dict_flat_generator attname splitter dumps error val _ _)
          as [l|e].
        -- destruct (flat_items attname splitter dumps error prefix items)
             as [rest|e].
           ++ apply Forall2_app; assumption.
           ++ destruct IHitems as (v & Hin & Hd). exists v.
              split; [apply in_or_app; now right|exact Hd].
        -- destruct Hval as (v & Hin & Hd). exists v.
           split; [apply in_or_app; now left|exact Hd].
    + cbn [dict_flat_generator yielded].
      destruct (truthy_prefix prefix); [|congruence].
      destruct (dumped dumps (JDict items)) as [d|e] eqn:Hd.
      * constructor; [exact Hd|constructor].
      * exists (JDict items). split; [now left|exact Hd].
Qed.

(** At top level, the loop over the items of a dictionary. *)
Lemma flat_items_top (items : list (string * jvalue)) :
  match flat_items attname splitter dumps error None items with
  | Ok pairs =>
      ~ In EmptyString (map fst items)
      /\ Forall2 (fun v pair => dumped dumps v = Ok (snd pair))
           (yielded (JDict items) true) pairs
  | Raise e =>
      (In EmptyString (map fst items)
       /\ e = error "Cannot assign a non dictionary to a JSON field")
      \/ exists v, In v (yielded (JDict items) true) /\ dumped dumps v = Raise e
  end.
Proof.
  cbn [yielded].
  induction items as [|[field val] items IH];
    cbn [flat_items flat_map map fst snd In].
  - split; [tauto|constructor].
  - fold (flat_items attname splitter dumps error None).
    destruct field as [|c field]; cbn [truthy_str truthy_prefix].
    + destruct val; cbn [dict_flat_generator truthy_prefix];
        left; (split; [now left|reflexivity]).
    + pose proof (dict_flat_generator_yields val (Some (String c field)) true)
        as Hval.
      destruct (dict_flat_generator attname splitter dumps error val _ _)
        as [l|e].
      * specialize (Hval ltac:(discriminate)).
        destruct (flat_items attname splitter dumps error None items)
          as [rest|e].
        -- destruct IH as [Hno Hf]. split.
           ++ intros [Hc|Hin]; [discriminate|contradiction].
           ++ apply Forall2_app; assumption.
        -- destruct IH as [[Hin ->]|(v & Hin & Hd)].
           ++ left. split; [now right|reflexivity].
           ++ right. exists v. split; [apply in_or_app; now right|exact Hd].
      * specialize (Hval ltac:(discriminate)).
        destruct Hval as (v & Hin & Hd). right. exists v.
        split; [apply in_or_app; now left|exact Hd].
Qed.

(** X19. Every name [dict_flat_generator] yields lies under the namespace of
    the field: it is [attname], the splitter and a path that is not empty
    (the path alone when no [attname] is given), so the flat keys of one
    JSON field never collide with the plain key of another field. *)
Theorem dict_flat_generator_names_under_attname
  (value : jvalue) (pairs : list (string * (string + jvalue))) :
  dict_flat_generator attname splitter dumps error value None true = Ok pairs ->
  Forall (fun pair => qualified attname splitter (fst pair)) pairs.
Proof.
  apply dict_flat_generator_qualified.
Qed.

(** X20. At top level [dict_flat_generator] returns exactly when the value
    is a dictionary none of whose own keys is empty and [dumps] returns on
    every value the unwinding reaches. It then yields one pair per value
    reached, in order, carrying its dump (the value itself without
    [dumps]). When it raises, the exception is [error] for a top-level value
    that cannot be assigned, or what [dumps] raised on a value reached. *)
Theorem dict_flat_generator_raises_iff (value : jvalue) :
  ((exists pairs,
      dict_flat_generator attname splitter dumps error value None true
      = Ok pairs)
   <-> (exists items, value = JDict items /\ ~ In EmptyString (map fst items))
       /\ Forall (fun v => exists d, dumped dumps v = Ok d) (yielded value true))
  /\ (forall pairs,
        dict_flat_generator attname splitter dumps error value None true
        = Ok pairs ->
        Forall2 (fun v pair => dumped dumps v = Ok (snd pair))
          (yielded value true) pairs)
  /\ (forall e,
        dict_flat_generator attname splitter dumps error value None true
        = Raise e ->
        e = error "Cannot assign a non dictionary to a JSON field"
        \/ exists v, In v (yielded value true) /\ dumped dumps v = Raise e).
Proof.
  destruct value as [v|items].
  - cbn [dict_flat_generator truthy_prefix]. split; [|split].
    + split; [intros (pairs & H); discriminate|].
      intros [(items & H & _) _]. discriminate.
    + intros pairs H. discriminate.
    + intros e [= <-]. now left.
  - rewrite dict_flat_generator_dict.
    pose proof (flat_items_top items) as Htop.
    destruct (flat_items attname splitter dumps error None items)
      as [pairs|e].
    + destruct Htop as [Hno Hf]. split; [|split].
      * split; [|eauto]. intros _. split; [eauto|].
        clear Hno. induction Hf as [|v pair vs ps Hv _ IH]; constructor; eauto.
      * intros ps [= <-]. exact Hf.
      * intros e H. discriminate.
    + split; [|split].
      * split; [intros (pairs & H); discriminate|].
        intros [(items' & [= <-] & Hno) Hall].
        destruct Htop as [[Hin _]|(v & Hin & Hd)]; [contradiction|].
        rewrite Forall_forall in Hall. destruct (Hall v Hin) as (d & Hok).
        congruence.
      * intros pairs H. discriminate.
      * intros e' [= <-]. destruct Htop as [[_ ->]|Hv]; [now left|now right].
Qed.

End DictFlatProps.

Lemma dict_flat_generator_names_under_attname_witness :
  Forall (fun pair : string * (string + jvalue) =>
            qualified (Some "data") "__" (fst pair))
    [("data__pv", inr (JLeaf "0.5")); ("data__pv__mean", inr (JLeaf "1"))].
Proof.
  apply (dict_flat_generator_names_under_attname (Some "data") "__" None
           (fun msg => FieldValueError msg)
           (JDict [("pv", JDict [("", JLeaf "0.5"); ("mean", JLeaf "1")])])).
  reflexivity.
Defined.

End JsonToolsProps.

Module RelatedProps.

Import Related.




End RelatedProps.

Module StructureKeysProps.

Import Structures.

(** X22. A flush names no key but the structure's own: every command queued
    by the [flush] of a string, set, ordered set, list or hash, by
    [TS.flush] and by [NumberArray.flush] has the id of the structure as its
    only key. *)
Theorem flush_only_names_own_id
  (s : structure) (id : rkey) (ts : cache (Z * string) Z) (na : listcache)
  (c : client) :
  (exists cmds, fst (flush s c) = c ++ cmds
                /\ Forall (fun cmd => command_keys cmd = [structure_key s]) cmds)
  /\ (exists cmds, fst (TS_flush id ts c) = c ++ cmds
                   /\ Forall (fun cmd => command_keys cmd = [id]) cmds)
  /\ (exists cmds, fst (NumberArray_flush id na c) = c ++ cmds
                   /\ Forall (fun cmd => command_keys cmd = [id]) cmds).
Proof.
  split; [|split].
  - destruct s as [k data | k [a r] | k [a r] | k [f b] | k [a r]];
      cbn [flush structure_key];
      unfold String_flush, Set_flush, Zset_flush, List_flush, Hash_flush;
      cbn [toadd toremove front back];
      repeat match goal with
             | |- context [truthy_str ?x] => destruct (truthy_str x)
             | |- context [truthy ?x] => destruct (truthy x)
             end;
      cbn [fst]; rewrite <- ?app_assoc; cbn [app];
      first [ exists []; rewrite app_nil_r; split; [reflexivity|constructor]
            | eexists; split; [reflexivity|repeat constructor] ].
  - destruct ts as [a r]. unfold TS_flush. cbn [toadd toremove].
    destruct (truthy a), (truthy r); cbn [fst];
      first [ exists []; rewrite app_nil_r; split; [reflexivity|constructor]
            | eexists; split; [reflexivity|repeat constructor] ].
  - unfold NumberArray_flush. destruct (truthy (back na)); cbn [fst];
      first [ exists []; rewrite app_nil_r; split; [reflexivity|constructor]
            | eexists; split; [reflexivity|repeat constructor] ].
Qed.

End StructureKeysProps.

(** ** Nesting a flat JSON field back *)

Module JsonNestProps.

Import JsonTools.

Lemma dict_get_None {V : Type} (d : Scripts.dict V) (k : string) :
  Scripts.dict_get d k = None <-> ~ In k (map fst d).
Proof.
  induction d as [|[k0 v0] d IH]; cbn; [tauto|].
  destruct (String.eqb_spec k0 k) as [->|Hne]; [split; [discriminate|tauto]|].
  rewrite IH. tauto.
Qed.

Lemma dict_get_Some_in {V : Type} (d : Scripts.dict V) (k : string) (v : V) :
  Scripts.dict_get d k = Some v -> In k (map fst d).
Proof.
  intros H. destruct (in_dec string_dec k (map fst d)) as [Hin|Hn]; [exact Hin|].
  apply dict_get_None in Hn. congruence.
Qed.

Lemma append_snoc (cur : string) (c : Ascii.ascii) (rest : string) :
  String.append (String.append cur (String c EmptyString)) rest
  = String.append cur (String c rest).
Proof.
  induction cur as [|a cur IH]; cbn; [reflexivity|]. now rewrite IH.
Qed.

Lemma append_empty (s : string) : String.append s EmptyString = s.
Proof.
  induction s as [|a s IH]; cbn; [reflexivity|]. now rewrite IH.
Qed.

Lemma split_go_whole (sep s : string) :
  occurs sep s = false ->
  forall cur, split_go sep s 0 cur = [String.append cur s].
Proof.
  induction s as [|c rest IH]; intros Ho cur.
  - cbn. now rewrite append_empty.
  - cbn [occurs] in Ho. apply orb_false_elim in Ho as [Hp Ho].
    cbn [split_go]. rewrite Hp, (IH Ho), append_snoc. reflexivity.
Qed.

Lemma split_whole (sep s : string) :
  truthy_str sep = true -> occurs sep s = false -> split sep s = inr [s].
Proof.
  intros Hsep Ho. unfold split. now rewrite Hsep, split_go_whole.
Qed.

Section NestProps.

Variable separator : string.
Variable loads : option (string -> jvalue).
Variable instance : bool.

Lemma flat_to_nested_loop_raises (a : string) (attname : option string)
  (data : list (string * string)) :
  truthy_prefix attname = Some a ->
  split separator a = inr [a] ->
  In a (map fst data) ->
  forall val injected,
  exists e,
    flat_to_nested_loop attname separator loads instance data val injected
    = inl e.
Proof.
  intros Ha Hs. induction data as [|[key raw] data IH]; intros Hin val injected;
    [destruct Hin|].
  cbn [flat_to_nested_loop].
  destruct (string_dec key a) as [->|Hne].
  - rewrite Hs, Ha, String.eqb_refl. cbn. eauto.
  - assert (Hrest : In a (map fst data)).
    { destruct Hin as [Hk|Hin]; [cbn in Hk; congruence|exact Hin]. }
    destruct (split separator key) as [e|keys]; [eauto|]. rewrite Ha.
    destruct keys as [|k0 keys]; [eauto|].
    destruct (negb (String.eqb k0 a)); [apply IH, Hrest|].
    destruct (rev keys) as [|lk init]; [eauto|].
    destruct (nest_set val (rev init) lk _) as [e|val']; [eauto|].
    apply IH, Hrest.
Qed.

(** X23. With an [attname] that the separator does not split,
    [flat_to_nested] raises on every flat dictionary that holds the plain
    key [attname] itself: once the first component is popped no key is left,
    and [keys[-1]] fails (an earlier key can only make it raise sooner). *)
Theorem flat_to_nested_raises_on_root_key
  (a : string) (attname : option string) (data : Scripts.dict string) :
  truthy_prefix attname = Some a ->
  split separator a = inr [a] ->
  In a (map fst data) ->
  exists e, flat_to_nested attname separator loads instance data = inl e.
Proof.
  intros Ha Hs Hin. unfold flat_to_nested.
  exact (flat_to_nested_loop_raises a attname data Ha Hs Hin [] []).
Qed.

Lemma flat_to_nested_loop_flat (data : list (string * string)) :
  truthy_str separator = true ->
  Forall (fun kv => occurs separator (fst kv) = false) data ->
  forall val injected,
    NoDup (map fst val ++ map fst data) ->
    flat_to_nested_loop None separator loads instance data val injected
    = inr (val ++ map (loaded loads) data,
           if instance then injected ++ map (loaded loads) data else injected).
Proof.
  intros Hsep.
  induction 1 as [|[key raw] data Hk _ IH]; intros val injected Hnd.
  - cbn. rewrite !app_nil_r. destruct instance; reflexivity.
  - cbn [flat_to_nested_loop]. cbn [fst] in Hk.
    rewrite (split_whole _ _ Hsep Hk). cbn [truthy_prefix rev app nest_set].
    assert (Hfresh : ~ In key (map fst val)).
    { cbn [map fst] in Hnd. apply NoDup_remove_2 in Hnd.
      intros Hin. apply Hnd. apply in_or_app. now left. }
    rewrite (proj2 (dict_get_None val key) Hfresh).
    rewrite ScriptsProps.dict_set_fresh by exact Hfresh.
    rewrite IH.
    + cbn [map]. unfold loaded. cbn [fst snd].
      destruct instance; rewrite <- ?app_assoc; cbn [app]; reflexivity.
    + rewrite map_app. cbn [map fst]. rewrite <- app_assoc. exact Hnd.
Qed.

(** X24. Round trip for plain keys: with a separator that is not empty and
    no [attname], on a dictionary whose keys do not contain the separator,
    [flat_to_nested] returns the same keys in the order of the iteration,
    each with its loaded value, and, when an instance is given, sets exactly
    these attributes on it. *)
Theorem flat_to_nested_plain_keys (data : Scripts.dict string) :
  truthy_str separator = true ->
  Forall (fun kv => occurs separator (fst kv) = false) data ->
  NoDup (map fst data) ->
  flat_to_nested None separator loads instance data
  = inr (map (loaded loads) data, if instance then map (loaded loads) data else []).
Proof.
  intros Hsep Hk Hnd. unfold flat_to_nested.
  rewrite (flat_to_nested_loop_flat data Hsep Hk [] []); [reflexivity|exact Hnd].
Qed.

End NestProps.

Lemma flat_to_nested_raises_on_root_key_witness :
  exists e,
    flat_to_nested (Some "data") "__" None false
      [("data__pv", "0.5"); ("data", "e")] = inl e.
Proof.
  apply (flat_to_nested_raises_on_root_key "__" None false "data" (Some "data")
           [("data__pv", "0.5"); ("data", "e")]).
  - reflexivity.
  - reflexivity.
  - right. left. reflexivity.
Defined.

Lemma flat_to_nested_plain_keys_witness :
  flat_to_nested None "__" None true [("title", "emma"); ("year", "1815")]
  = inr (map (loaded None) [("title", "emma"); ("year", "1815")],
         map (loaded None) [("title", "emma"); ("year", "1815")]).
Proof.
  apply (flat_to_nested_plain_keys "__" None true
           [("title", "emma"); ("year", "1815")]).
  - reflexivity.
  - repeat constructor.
  - repeat constructor; cbn; intuition discriminate.
Defined.

(** With [dumps] given, every value [dict_flat_generator] yields is a
    string. *)
Lemma dict_flat_generator_strings (attname : option string) (splitter : string)
  (dumps : jvalue -> result string) (error : string -> exn) (value : jvalue)
  (pairs : list (string * (string + jvalue))) :
  dict_flat_generator attname splitter (Some dumps) error value None true
  = Ok pairs ->
  Forall (fun pair => exists s, snd pair = inl s) pairs.
Proof.
  destruct value as [v|items]; [discriminate|].
  rewrite JsonToolsProps.dict_flat_generator_dict. intros He.
  pose proof (JsonToolsProps.flat_items_top attname splitter (Some dumps) error
                items) as Htop.
  rewrite He in Htop. destruct Htop as [_ Hf]. clear He.
  induction Hf as [|v pair vs ps Hv _ IH]; [constructor|].
  constructor; [|exact IH].
  unfold dumped in Hv. destruct (dumps v); [|discriminate].
  injection Hv as <-. eauto.
Qed.

(** A value json cannot encode makes the unwinding raise what [dumps]
    raises. *)
Example serialize_unwind_unencodable :
  serialize_unwind "data" Examples.dumps "null" "e"
    (JDict [("pv", JLeaf "0.5"); ("made", JLeaf "object()")])
  = Raise (FieldValueError "object() is not JSON serializable").
Proof.
  reflexivity.
Qed.

(** X25. What [JSONField.serialize] unwinds for a field stored flat cannot
    be nested back under the same [attname]: the flat dictionary always
    holds the root key [attname] (set to the dump of the empty string, or of
    [None] when the value unwinds to nothing), and [flat_to_nested] raises
    on it, for every value, whatever [loads] is. *)
Theorem serialize_unwind_not_nested_back
  (attname : string) (dumps : jvalue -> result string)
  (dumps_None dumps_empty : string)
  (loads : option (string -> jvalue)) (instance : bool)
  (value : jvalue) (data : Scripts.dict string) :
  truthy_str attname = true ->
  split "__" attname = inr [attname] ->
  serialize_unwind attname dumps dumps_None dumps_empty value = Ok data ->
  In attname (map fst data)
  /\ exists e, flat_to_nested (Some attname) "__" loads instance data = inl e.
Proof.
  intros Ht Hs Hser.
  assert (Hin : In attname (map fst data)).
  { unfold serialize_unwind in Hser.
    destruct (dict_flat_generator _ _ _ _ value None true) as [pairs|e];
      [|discriminate].
    destruct (negb (truthy _)); [injection Hser as <-; now left|].
    destruct (Scripts.dict_get _ attname) as [v|] eqn:Hget;
      injection Hser as <-.
    - exact (dict_get_Some_in _ _ _ Hget).
    - rewrite ScriptsProps.dict_set_keys.
      destruct (existsb (String.eqb attname) _) eqn:Hex.
      + apply existsb_exists in Hex as (x & Hx & He).
        apply String.eqb_eq in He. now subst x.
      + apply in_or_app. right. now left. }
  split; [exact Hin|].
  unfold flat_to_nested.
  apply (flat_to_nested_loop_raises "__" loads instance attname
           (Some attname) data); [cbn; now rewrite Ht|exact Hs|exact Hin].
Qed.

Lemma serialize_unwind_not_nested_back_witness :
  In "data"
    (map fst [("data__pv", "0.5"); ("data__pv__mean", "1"); ("data", "e")])
  /\ exists e,
      flat_to_nested (Some "data") "__" None true
        [("data__pv", "0.5"); ("data__pv__mean", "1"); ("data", "e")] = inl e.
Proof.
  apply (serialize_unwind_not_nested_back "data" Examples.dumps "null" "e"
           None true
           (JDict [("pv", JDict [("", JLeaf "0.5"); ("mean", JLeaf "1")])])).
  - reflexivity.
  - reflexivity.
  - reflexivity.
Defined.

End JsonNestProps.
